(** * Marketring topic queue router: Kafka records to SQS queues

    A shallow embedding of [src/router.py] and the properties of its
    classification-and-dispatch pipeline:
    decode, classify, group, batched delivery, aggregation. *)

From Stdlib Require Import ZArith Lia Ascii String DecimalString.
From Stdlib.Strings Require Byte.
From stdpp Require Import base list strings.
From Equations Require Import Equations.

Local Open Scope string_scope.
Local Open Scope list_scope.

(** ** Python values

    Everything the handler touches comes out of [json.loads] or out of the
    Lambda runtime's JSON event, so a value is a JSON value.  An [int] is
    unbounded; a [float] is an IEEE double, carried by its exact value
    [m * 2^e], or is an infinity or a NaN; a [dict] keeps insertion order. *)

Inductive pyfloat :=
| FNan
| FInf (negative : bool)
| FFin (m e : Z).

#[local] Unset Elimination Schemes.
Inductive json :=
| JNull
| JBool (b : bool)
| JInt (n : Z)
| JFloat (f : pyfloat)
| JStr (s : string)
| JList (l : list json)
| JDict (d : list (string * json)).
#[local] Set Elimination Schemes.

Record exn := Exception { exn_class : string; exn_msg : string }.

(** [str(e)] *)
Definition str_exn (e : exn) : string := exn_msg e.

Inductive res (A : Type) :=
| Ok (a : A)
| Raise (e : exn).
Arguments Ok {A} a.
Arguments Raise {A} e.

Definition res_bind {A B} (m : res A) (k : A -> res B) : res B :=
  match m with
  | Ok a => k a
  | Raise e => Raise e
  end.

Notation "'let?' x ':=' m 'in' k" := (res_bind m (fun x => k))
  (at level 10, x name, m at level 100, k at level 200).

(** ** Observations and the effect monad

    What an invocation lets the outside see, in order: the calls to the
    logger, the three metrics of [RouterMetrics], and the calls to the SQS
    client.  A [Log] is the call as the code makes it; which calls end up as
    records is the logger's configuration.  A computation yields the
    observations it made and then a value or a raised exception;
    observations made before a raise stay made. *)

Inductive level := DEBUG | INFO | WARNING | ERROR.

(** An entry of a batch: [entry_Id] is the index whose text [str(i)] is the
    [Id], [entry_MessageBody] the message whose text [json.dumps] writes,
    [entry_queueType] the value handed over as the [StringValue] of the
    attribute [queueType], and [entry_productId] the text [str(...)] that is
    the [StringValue] of the attribute [productId]. *)
Record entry := Entry {
  entry_Id : nat;
  entry_MessageBody : json;
  entry_queueType : json;
  entry_productId : string
}.

Inductive obs :=
| Log (lvl : level) (msg : string) (extra : list (string * json))
| MessagesProcessed (queue_type : json)
| RoutingErrors (error_type : string)
| BatchSize (size : nat)
| SendMessageBatch (QueueUrl : string) (Entries : list entry).

Definition M (A : Type) : Type := (list obs * res A)%type.

Definition ret {A} (a : A) : M A := ([], Ok a).

Definition bind {A B} (m : M A) (k : A -> M B) : M B :=
  match m with
  | (t, Ok a) => let '(t', r) := k a in (t ++ t', r)
  | (t, Raise e) => (t, Raise e)
  end.

Definition lift {A} (r : res A) : M A := ([], r).

Definition emit (o : obs) : M unit := ([o], Ok tt).

(** [try: m  except Exception as e: handler e] *)
Definition try_except {A} (m : M A) (handler : exn -> M A) : M A :=
  match m with
  | (t, Ok a) => (t, Ok a)
  | (t, Raise e) => let '(t', r) := handler e in (t ++ t', r)
  end.

Notation "'let!' x ':=' m 'in' k" := (bind m (fun x => k))
  (at level 10, x name, m at level 100, k at level 200).
Notation "'let!' ' p ':=' m 'in' k" := (bind m (fun x => match x with p => k end))
  (at level 10, p pattern, m at level 100, k at level 200).
Notation "m ';;!' k" := (bind m (fun _ => k))
  (at level 100, k at level 200, right associativity).

(** [for x in l: s = body s x] *)
Fixpoint for_each {A S} (l : list A) (s : S) (body : S -> A -> M S) : M S :=
  match l with
  | [] => ret s
  | x :: l' => let! s' := body s x in for_each l' s' body
  end.

(** ** Dictionaries *)

Module Dict.

Fixpoint get {V} (d : list (string * V)) (k : string) : option V :=
  match d with
  | [] => None
  | (k', v) :: d' => if String.eqb k' k then Some v else get d' k
  end.

(** [d[k] = v]: an existing key keeps its place, a new key goes last. *)
Fixpoint set {V} (d : list (string * V)) (k : string) (v : V) : list (string * V) :=
  match d with
  | [] => [(k, v)]
  | (k', v') :: d' =>
      if String.eqb k' k then (k', v) :: d' else (k', v') :: set d' k v
  end.

Definition mem {V} (d : list (string * V)) (k : string) : bool :=
  match get d k with Some _ => true | None => false end.

Definition keys {V} (d : list (string * V)) : list string := map fst d.

End Dict.

(** ** Built-in operations of the language, as far as the router uses them *)

Definition type_name (v : json) : string :=
  match v with
  | JNull => "NoneType"
  | JBool _ => "bool"
  | JInt _ => "int"
  | JFloat _ => "float"
  | JStr _ => "str"
  | JList _ => "list"
  | JDict _ => "dict"
  end.

Definition AttributeError (v : json) (attr : string) : exn :=
  Exception "AttributeError"
    ("'" ++ type_name v ++ "' object has no attribute '" ++ attr ++ "'").

Definition TypeError (msg : string) : exn := Exception "TypeError" msg.

(** [bool(v)]: what [if v:] and [v and ...] test. *)
Definition truthy (v : json) : bool :=
  match v with
  | JNull => false
  | JBool b => b
  | JInt n => negb (n =? 0)%Z
  | JFloat (FFin m _) => negb (m =? 0)%Z
  | JFloat _ => true
  | JStr s => negb (String.eqb s "")
  | JList l => match l with [] => false | _ => true end
  | JDict d => match d with [] => false | _ => true end
  end.

(** [o.get(key, default)] *)
Definition py_get (o : json) (key : string) (default : json) : res json :=
  match o with
  | JDict d => Ok (match Dict.get d key with Some v => v | None => default end)
  | _ => Raise (AttributeError o "get")
  end.

(** [v in d] for a dict [d] with string keys: [v] is hashed first, and a
    list or a dict has no hash. *)
Definition py_in {V} (v : json) (d : list (string * V)) : res bool :=
  match v with
  | JStr s => Ok (Dict.mem d s)
  | JList _ | JDict _ => Raise (TypeError ("unhashable type: '" ++ type_name v ++ "'"))
  | _ => Ok false
  end.

(** [f <= k] for a float [f] and an int [k]; the language compares the two
    exactly. *)
Definition float_le_int (f : pyfloat) (k : Z) : bool :=
  match f with
  | FNan => false
  | FInf negative => negative
  | FFin m e => (if 0 <=? e then m * 2 ^ e <=? k else m <=? k * 2 ^ (- e))%Z
  end.

(** [v <= k] for an int literal [k] *)
Definition py_le_int (v : json) (k : Z) : res bool :=
  match v with
  | JInt n => Ok (n <=? k)%Z
  | JBool b => Ok (Z.b2z b <=? k)%Z
  | JFloat f => Ok (float_le_int f k)
  | _ => Raise (TypeError ("'<=' not supported between instances of '"
                           ++ type_name v ++ "' and 'int'"))
  end.

(** [len(v)] *)
Definition py_len (v : json) : res nat :=
  match v with
  | JStr s => Ok (String.length s)
  | JList l => Ok (length l)
  | JDict d => Ok (length d)
  | _ => Raise (TypeError ("object of type '" ++ type_name v ++ "' has no len()"))
  end.

(** [v.items()] *)
Definition py_items (v : json) : res (list (string * json)) :=
  match v with
  | JDict d => Ok d
  | _ => Raise (AttributeError v "items")
  end.

Fixpoint chars (s : string) : list json :=
  match s with
  | EmptyString => []
  | String c s' => JStr (String c EmptyString) :: chars s'
  end.

(** What [for x in v] runs over: the elements of a list, the characters of
    a string, the keys of a dict. *)
Definition py_iter (v : json) : res (list json) :=
  match v with
  | JList l => Ok l
  | JStr s => Ok (chars s)
  | JDict d => Ok (map JStr (Dict.keys d))
  | _ => Raise (TypeError ("'" ++ type_name v ++ "' object is not iterable"))
  end.

(** [o[key] = v] *)
Definition py_setitem (o : json) (key : string) (v : json) : res json :=
  match o with
  | JDict d => Ok (JDict (Dict.set d key v))
  | JList _ => Raise (TypeError "list indices must be integers or slices, not str")
  | _ => Raise (TypeError ("'" ++ type_name o ++ "' object does not support item assignment"))
  end.

Definition KeyError (key : string) : exn := Exception "KeyError" ("'" ++ key ++ "'").

(** [d[key]] for a dict with string keys *)
Definition py_getitem {V} (d : list (string * V)) (key : string) : res V :=
  match Dict.get d key with
  | Some v => Ok v
  | None => Raise (KeyError key)
  end.

(** [str(v)].  A string is its own text; the text of a float, a list or a
    dict is its [repr], which is left to the parameter. *)
Definition py_str (repr : json -> string) (v : json) : string :=
  match v with
  | JNull => "None"
  | JBool true => "True"
  | JBool false => "False"
  | JInt n => NilZero.string_of_int (Z.to_int n)
  | JStr s => s
  | JFloat _ | JList _ | JDict _ => repr v
  end.

Definition dquote : ascii := Ascii false true false false false true false false.

(** The attributes of a [LogRecord] that [Logger.makeRecord] refuses to
    take from [extra]. *)
Definition LogRecord_attributes : list string :=
  ["message"; "asctime"; "name"; "msg"; "args"; "levelname"; "levelno";
   "pathname"; "filename"; "module"; "exc_info"; "exc_text"; "stack_info";
   "lineno"; "funcName"; "created"; "msecs"; "relativeCreated"; "thread";
   "threadName"; "processName"; "process"; "taskName"].

(** The first key of [extra] that would overwrite an attribute. *)
Definition overwritten (extra : list (string * json)) : option string :=
  List.find (fun key => existsb (String.eqb key) LogRecord_attributes) (Dict.keys extra).

(** [KeyError("Attempt to overwrite %r in LogRecord" % key)]; its [str] is
    the [repr] of that text. *)
Definition OverwriteError (key : string) : exn :=
  Exception "KeyError"
    (String dquote ("Attempt to overwrite '" ++ key ++ "' in LogRecord"
                    ++ String dquote EmptyString)).

(** [range(start, stop, step)] for a positive step, as the list it runs
    over. *)
Equations? py_range (start stop step : nat) : list nat by wf (stop - start) lt :=
  py_range start stop step with decide (start < stop /\ 0 < step) := {
    | left _ => start :: py_range (start + step) stop step
    | right _ => [] }.
Proof. lia. Qed.

(** [l[i:j]] for [0 <= i <= j] *)
Definition py_slice {A} (l : list A) (i j : nat) : list A := take (j - i) (drop i l).

(** ** The process environment

    What the module takes from outside: the three queue URLs read from
    [os.environ] at import, the levels the logger is enabled for, the
    [repr] of floats, lists and dicts, the library decoders, the SQS client,
    whether waiting for the [i]-th submitted task runs into the timeout, and
    the library's three decorators of the handler, each taking the function
    it wraps. *)

Record Environment := {
  SMALL_QUEUE_URL : string;
  MEDIUM_QUEUE_URL : string;
  LARGE_QUEUE_URL : string;
  isEnabledFor : level -> bool;
  py_repr : json -> string;
  b64decode : json -> res (list Byte.byte);
  decode_utf8 : list Byte.byte -> res string;
  json_loads : string -> res json;
  send_message_batch : nat -> string -> list entry -> res (list (string * json));
  result_timeout : nat -> bool;
  log_metrics : (json -> M json) -> json -> M json;
  inject_lambda_context : (json -> M json) -> json -> M json;
  capture_lambda_handler : (json -> M json) -> json -> M json
}.

(** [MAX_WORKERS] bounds how many tasks run at once; it has no part in what
    the tasks return. *)
Definition MAX_WORKERS : nat := 10.
Definition BATCH_SIZE : nat := 10.

Section Router.

Context (env : Environment).

Definition QUEUE_MAPPINGS : list (string * string) :=
  [("SMALL", SMALL_QUEUE_URL env);
   ("MEDIUM", MEDIUM_QUEUE_URL env);
   ("LARGE", LARGE_QUEUE_URL env)].

Definition determine_queue_type (message : json) : res json :=
  let? queue_type := py_get message "queueType" JNull in
  let? known := (if truthy queue_type then py_in queue_type QUEUE_MAPPINGS
                 else Ok false) in
  if known then Ok queue_type
  else
    let? fallback := py_get message "NumberOfApplications" (JInt 0%Z) in
    let? app_count := py_get message "applicationCount" fallback in
    let? small := py_le_int app_count 50%Z in
    if small then Ok (JStr "SMALL")
    else
      let? medium := py_le_int app_count 200%Z in
      if medium then Ok (JStr "MEDIUM") else Ok (JStr "LARGE").

(** *** RouterMetrics *)

Definition record_message_processed (queue_type : json) : M unit :=
  emit (MessagesProcessed queue_type).

Definition record_routing_error (error_type : string) : M unit :=
  emit (RoutingErrors error_type).

Definition record_batch_size (size : nat) : M unit :=
  emit (BatchSize size).

(** [logger.debug], [.info], [.warning], [.error] with [extra].  At a level
    the logger is enabled for, a record is made, and making it raises when a
    key of [extra] is the name of one of the record's attributes. *)
Definition logger (lvl : level) (msg : string) (extra : list (string * json)) : M unit :=
  match overwritten extra with
  | Some key =>
      if isEnabledFor env lvl then ([Log lvl msg extra], Raise (OverwriteError key))
      else emit (Log lvl msg extra)
  | None => emit (Log lvl msg extra)
  end.

Definition JNat (n : nat) : json := JInt (Z.of_nat n).

(** *** Decoder *)

Definition parse_kafka_message (record : json) : M json :=
  try_except
    (let! encoded_value := lift (py_get record "value" (JStr "")) in
     if negb (truthy encoded_value) then
       logger WARNING "Empty message value in record" [("record", record)] ;;!
       ret JNull
     else
       let! decoded_bytes := lift (b64decode env encoded_value) in
       let! message_str := lift (decode_utf8 env decoded_bytes) in
       let! message_data := lift (json_loads env message_str) in
       logger DEBUG "Parsed message" [("message", message_data)] ;;!
       ret message_data)
    (fun e =>
       logger ERROR "Failed to parse Kafka message"
         [("error", JStr (str_exn e)); ("record", record)] ;;!
       record_routing_error "parse_error" ;;!
       ret JNull).

(** *** Sender *)

Definition make_entry (i : nat) (message : json) : res entry :=
  let? queue_type := py_get message "queueType" (JStr "UNKNOWN") in
  let? product_id := py_get message "productId" (JStr "unknown") in
  Ok (Entry i message queue_type (py_str (py_repr env) product_id)).

Fixpoint make_entries (i : nat) (messages : list json) : res (list entry) :=
  match messages with
  | [] => Ok []
  | message :: rest =>
      let? e := make_entry i message in
      let? es := make_entries (S i) rest in
      Ok (e :: es)
  end.

(** ['Failed' in response and response['Failed']] *)
Definition has_failed (response : list (string * json)) : bool :=
  match Dict.get response "Failed" with
  | Some failed => truthy failed
  | None => false
  end.

(** [task] numbers the call among the submitted ones, so that the client may
    answer two equal calls differently. *)
Definition send_to_sqs_batch (task : nat) (messages : list json) (queue_url : string)
  : M bool :=
  try_except
    (let! entries := lift (make_entries 0 messages) in
     emit (SendMessageBatch queue_url entries) ;;!
     let! response := lift (send_message_batch env task queue_url entries) in
     if has_failed response then
       logger ERROR "SQS batch send failures"
         [("failed_messages", default JNull (Dict.get response "Failed"));
          ("queue_url", JStr queue_url)] ;;!
       record_routing_error "sqs_batch_failure" ;;!
       ret false
     else
       logger INFO "Successfully sent batch to SQS"
         [("queue_url", JStr queue_url); ("message_count", JNat (length messages))] ;;!
       ret true)
    (fun e =>
       logger ERROR "Failed to send batch to SQS"
         [("error", JStr (str_exn e)); ("queue_url", JStr queue_url);
          ("message_count", JNat (length messages))] ;;!
       record_routing_error "sqs_send_error" ;;!
       ret false).

(** *** Grouper *)

Definition route_message (grouped_messages : list (string * list json)) (message : json)
  : M (list (string * list json)) :=
  let! queue_type := lift (determine_queue_type message) in
  let! known := lift (if truthy queue_type then py_in queue_type grouped_messages
                      else Ok false) in
  match known, queue_type with
  | true, JStr key =>
      let! message' := lift (py_setitem message "queueType" queue_type) in
      let! group := lift (py_getitem grouped_messages key) in
      record_message_processed queue_type ;;!
      ret (Dict.set grouped_messages key (group ++ [message']))
  | _, _ =>
      logger WARNING "Unable to determine queue type" [("message", message)] ;;!
      record_routing_error "undetermined_queue_type" ;;!
      ret grouped_messages
  end.

Definition route_messages_by_queue_type (parsed_messages : list json)
  : M (list (string * list json)) :=
  for_each parsed_messages [("SMALL", []); ("MEDIUM", []); ("LARGE", [])] route_message.

(** *** Batcher and dispatcher *)

(** The slices [messages[i:i + BATCH_SIZE]] for [i] in
    [range(0, len(messages), BATCH_SIZE)]. *)
Definition batches (messages : list json) : list (list json) :=
  map (fun i => py_slice messages i (i + BATCH_SIZE))
      (py_range 0 (length messages) BATCH_SIZE).

(** A submitted task: its number, what [send_to_sqs_batch] returned, and the
    two fields kept next to the future. *)
Record future := Future {
  fut_task : nat;
  fut_value : bool;
  fut_queue_type : string;
  fut_batch_size : nat
}.

(** [executor.submit(send_to_sqs_batch, batch, queue_url)].  The pool runs
    the tasks side by side; how their observations interleave is not
    modelled, each task's are put where it is submitted, and what the task
    returns is settled by the client's answer. *)
Definition submit (queue_type queue_url : string) (futures : list future)
    (batch : list json) : M (list future) :=
  let task := length futures in
  let! value := send_to_sqs_batch task batch queue_url in
  ret (futures ++ [Future task value queue_type (length batch)]).

Definition submit_group (futures : list future) (item : string * list json)
  : M (list future) :=
  let '(queue_type, messages) := item in
  match messages with
  | [] => ret futures
  | _ =>
      let! queue_url := lift (py_getitem QUEUE_MAPPINGS queue_type) in
      for_each (batches messages) futures (submit queue_type queue_url)
  end.

Definition TimeoutError : exn := Exception "TimeoutError" "".

(** [future.result(timeout=30)] *)
Definition future_result (f : future) : res bool :=
  if result_timeout env (fut_task f) then Raise TimeoutError else Ok (fut_value f).

Definition await (all_successful : bool) (f : future) : M bool :=
  try_except
    (let! success := lift (future_result f) in
     if negb success then ret false
     else record_batch_size (fut_batch_size f) ;;! ret all_successful)
    (fun e =>
       logger ERROR "Batch send failed"
         [("error", JStr (str_exn e)); ("queue_type", JStr (fut_queue_type f));
          ("batch_size", JNat (fut_batch_size f))] ;;!
       record_routing_error "concurrent_send_error" ;;!
       ret false).

(** The two loops of [send_batches_concurrently]: the one that submits,
    and the one that waits for every future. *)
Definition submit_all (grouped_messages : list (string * list json))
  : M (list future) :=
  for_each grouped_messages [] submit_group.

Definition await_all (futures : list future) : M bool :=
  for_each futures true await.

Definition send_batches_concurrently (grouped_messages : list (string * list json))
  : M bool :=
  let! futures := submit_all grouped_messages in
  await_all futures.

(** *** Orchestrator *)

Definition decode_records (parsed_messages : list json) (record : json) : M (list json) :=
  let! parsed_message := parse_kafka_message record in
  ret (if truthy parsed_message then parsed_messages ++ [parsed_message]
       else parsed_messages).

Definition decode_partition (acc : list json * nat) (item : string * json)
  : M (list json * nat) :=
  let '(parsed_messages, total_records) := acc in
  let '(topic_partition, records) := item in
  let! n := lift (py_len records) in
  logger DEBUG "Processing partition"
    [("topic_partition", JStr topic_partition); ("record_count", JNat n)] ;;!
  let! elements := lift (py_iter records) in
  let! parsed_messages' := for_each elements parsed_messages decode_records in
  ret (parsed_messages', total_records + n).

Definition decode_phase (event : json) : M (list json) :=
  let! event_source := lift (py_get event "eventSource" JNull) in
  let! records := lift (py_get event "records" (JDict [])) in
  let! record_count := lift (py_len records) in
  logger INFO "Processing MSK event"
    [("event_source", event_source); ("record_count", JNat record_count)] ;;!
  let! items := lift (py_items records) in
  let! ' (parsed_messages, total_records) := for_each items ([], 0) decode_partition in
  logger INFO "Parsed messages from MSK"
    [("total_records", JNat total_records);
     ("parsed_messages", JNat (length parsed_messages))] ;;!
  ret parsed_messages.

Definition group_len (grouped_messages : list (string * list json)) (key : string)
  : res json :=
  let? group := py_getitem grouped_messages key in Ok (JNat (length group)).

Definition dispatch_phase (parsed_messages : list json) : M json :=
  let! grouped_messages := route_messages_by_queue_type parsed_messages in
  let! small := lift (group_len grouped_messages "SMALL") in
  let! medium := lift (group_len grouped_messages "MEDIUM") in
  let! large := lift (group_len grouped_messages "LARGE") in
  logger INFO "Grouped messages by queue type"
    [("small_count", small); ("medium_count", medium); ("large_count", large)] ;;!
  let! success := send_batches_concurrently grouped_messages in
  let response :=
    [("statusCode", JInt (if success then 200 else 500)%Z);
     ("processedMessages", JNat (length parsed_messages));
     ("queueDistribution",
      JDict [("small", small); ("medium", medium); ("large", large)])] in
  logger INFO "Completed message routing" response ;;!
  ret (JDict response).

(** The body of the handler's [try]. *)
Definition handler_body (event : json) : M json :=
  let! parsed_messages := decode_phase event in
  match parsed_messages with
  | [] =>
      logger WARNING "No valid messages to process" [] ;;!
      ret (JDict [("statusCode", JInt 200%Z); ("processedMessages", JInt 0%Z)])
  | _ => dispatch_phase parsed_messages
  end.

(** What the handler's own code yields, the [try] with its [except]: the
    observations and the response.  Its unused [context] argument is left
    out. *)
Definition lambda_handler (event : json) : list obs * json :=
  match handler_body event with
  | (t, Ok response) => (t, response)
  | (t, Raise e) =>
      (t ++ [Log ERROR "Lambda handler error" [("error", JStr (str_exn e))];
             RoutingErrors "handler_error"],
       JDict [("statusCode", JInt 500%Z); ("error", JStr (str_exn e))])
  end.

(** The same function as a computation that may raise: the calls of the
    [except] clause go through the logger and the metrics like any other,
    and an exception raised there would leave the function. *)
Definition lambda_handler_wrapped (event : json) : M json :=
  try_except (handler_body event)
    (fun e =>
       logger ERROR "Lambda handler error" [("error", JStr (str_exn e))] ;;!
       record_routing_error "handler_error" ;;!
       ret (JDict [("statusCode", JInt 500%Z); ("error", JStr (str_exn e))])).

(** The handler as the module exports it, under [@metrics.log_metrics],
    [@logger.inject_lambda_context] and [@tracer.capture_lambda_handler],
    innermost first. *)
Definition lambda_handler_decorated (event : json) : M json :=
  capture_lambda_handler env
    (inject_lambda_context env (log_metrics env lambda_handler_wrapped)) event.

End Router.

(** ** A reference environment for closed examples

    The library calls are parameters of the development; to run the handler
    on concrete events the examples need some instance.  This one decodes
    base64 the way [binascii.a2b_base64] does in its default mode, takes
    ASCII text only, and reads the JSON fragment made of objects, arrays,
    strings without escapes, integers, [true], [false], [null], [NaN] and the
    infinities.  Inside that fragment it yields what the library yields;
    input outside of it is refused, and the texts of its errors are shorter
    than the library's.  Its logger is at the default level, its decorators
    hand the handler's function on unchanged, and its [repr] covers the
    values of the fragment. *)

Module Reference.



Definition b64_digit (c : ascii) : option N :=
  let n := N_of_ascii c in
  if ((65 <=? n) && (n <=? 90))%N then Some (n - 65)%N
  else if ((97 <=? n) && (n <=? 122))%N then Some (n - 71)%N
  else if ((48 <=? n) && (n <=? 57))%N then Some (n + 4)%N
  else if (n =? 43)%N then Some 62%N
  else if (n =? 47)%N then Some 63%N
  else None.

Definition to_byte (n : N) : Byte.byte :=
  default Byte.x00 (Byte.of_N (n mod 256)%N).

Definition binascii_Error (msg : string) : exn := Exception "binascii.Error" msg.

(** The decoding loop: [quad_pos] is the position inside the current group
    of four digits, [leftchar] the bits not yet written, [pads] the run of
    [=] seen.  Characters outside the alphabet are skipped. *)
Fixpoint a2b_base64 (s : string) (quad_pos : nat) (leftchar : N) (pads : nat)
    (out : list Byte.byte) : res (list Byte.byte) :=
  match s with
  | EmptyString =>
      match quad_pos with
      | 0 => Ok out
      | 1 => Raise (binascii_Error "Invalid base64-encoded string")
      | _ => Raise (binascii_Error "Incorrect padding")
      end
  | String c rest =>
      if Ascii.eqb c "=" then
        if (2 <=? quad_pos)%nat then
          if (4 <=? quad_pos + S pads)%nat then Ok out
          else a2b_base64 rest quad_pos leftchar (S pads) out
        else a2b_base64 rest quad_pos leftchar pads out
      else
        match b64_digit c with
        | None => a2b_base64 rest quad_pos leftchar pads out
        | Some d =>
            match quad_pos with
            | 0 => a2b_base64 rest 1 d 0 out
            | 1 => a2b_base64 rest 2 (d mod 16)%N 0
                     (out ++ [to_byte (leftchar * 4 + d / 16)%N])
            | 2 => a2b_base64 rest 3 (d mod 4)%N 0
                     (out ++ [to_byte (leftchar * 16 + d / 4)%N])
            | _ => a2b_base64 rest 0 0%N 0
                     (out ++ [to_byte (leftchar * 64 + d)%N])
            end
        end
  end.

Definition is_ascii_text (s : string) : bool :=
  forallb (fun c => (N_of_ascii c <? 128)%N) (list_ascii_of_string s).

Definition ref_b64decode (v : json) : res (list Byte.byte) :=
  match v with
  | JStr s =>
      if is_ascii_text s then a2b_base64 s 0 0%N 0 []
      else Raise (Exception "ValueError"
                    "string argument should contain only ASCII characters")
  | _ => Raise (TypeError ("argument should be a bytes-like object or ASCII string, not '"
                           ++ type_name v ++ "'"))
  end.

Definition ref_decode_utf8 (b : list Byte.byte) : res string :=
  if forallb (fun x => (Byte.to_N x <? 128)%N) b
  then Ok (string_of_list_ascii (map ascii_of_byte b))
  else Raise (Exception "UnicodeDecodeError" "'utf-8' codec can't decode bytes").

(** *** Reading JSON text *)

Definition is_ws (c : ascii) : bool :=
  let n := N_of_ascii c in ((n =? 32) || (n =? 9) || (n =? 10) || (n =? 13))%N.

Fixpoint skip_ws (s : string) : string :=
  match s with
  | String c rest => if is_ws c then skip_ws rest else s
  | EmptyString => s
  end.

Definition digit (c : ascii) : option Z :=
  let n := N_of_ascii c in
  if ((48 <=? n) && (n <=? 57))%N then Some (Z.of_N (n - 48)) else None.

Fixpoint digits (s : string) (acc : Z) : Z * string :=
  match s with
  | String c rest =>
      match digit c with
      | Some d => digits rest (acc * 10 + d)%Z
      | None => (acc, s)
      end
  | EmptyString => (acc, s)
  end.

(** An integer literal: no leading zero, and no fraction or exponent after
    it (that would make it a float, which is outside the fragment). *)
Definition number (s : string) : option (Z * string) :=
  match s with
  | String c rest =>
      match digit c with
      | Some d =>
          let '(n, rest') := if (d =? 0)%Z then (0%Z, rest) else digits rest d in
          match rest' with
          | String c' _ =>
              if Ascii.eqb c' "." || Ascii.eqb c' "e" || Ascii.eqb c' "E" then None
              else match digit c' with Some _ => None | None => Some (n, rest') end
          | EmptyString => Some (n, rest')
          end
      | None => None
      end
  | EmptyString => None
  end.

(** The double quote character, code 34. *)
Definition quote : ascii := Ascii false true false false false true false false.

(** The characters of a string literal up to the closing quote. *)
Fixpoint string_body (s : string) : option (string * string) :=
  match s with
  | EmptyString => None
  | String c rest =>
      if Ascii.eqb c quote then Some (EmptyString, rest)
      else if Ascii.eqb c "\" || (N_of_ascii c <? 32)%N then None
      else match string_body rest with
           | Some (body, rest') => Some (String c body, rest')
           | None => None
           end
  end.

Definition keyword (k : string) (s : string) : option string :=
  if String.prefix k s then Some (String.substring (String.length k)
                                    (String.length s - String.length k) s)
  else None.

Fixpoint value (fuel : nat) (s : string) : option (json * string) :=
  match fuel with
  | 0 => None
  | S fuel =>
      match skip_ws s with
      | String "{" rest =>
          match skip_ws rest with
          | String "}" rest' => Some (JDict [], rest')
          | _ => members fuel rest []
          end
      | String "[" rest =>
          match skip_ws rest with
          | String "]" rest' => Some (JList [], rest')
          | _ => elements fuel rest []
          end
      | String (Ascii false true false false false true false false) rest =>
          match string_body rest with
          | Some (body, rest') => Some (JStr body, rest')
          | None => None
          end
      | String "-" rest =>
          match keyword "Infinity" rest with
          | Some rest' => Some (JFloat (FInf true), rest')
          | None =>
              match number rest with
              | Some (n, rest') => Some (JInt (- n), rest')
              | None => None
              end
          end
      | s' =>
          match keyword "true" s', keyword "false" s', keyword "null" s',
                keyword "NaN" s', keyword "Infinity" s' with
          | Some r, _, _, _, _ => Some (JBool true, r)
          | _, Some r, _, _, _ => Some (JBool false, r)
          | _, _, Some r, _, _ => Some (JNull, r)
          | _, _, _, Some r, _ => Some (JFloat FNan, r)
          | _, _, _, _, Some r => Some (JFloat (FInf false), r)
          | _, _, _, _, _ =>
              match number s' with
              | Some (n, r) => Some (JInt n, r)
              | None => None
              end
          end
      end
  end
with members (fuel : nat) (s : string) (acc : list (string * json))
  : option (json * string) :=
  match fuel with
  | 0 => None
  | S fuel =>
      match skip_ws s with
      | String (Ascii false true false false false true false false) rest =>
          match string_body rest with
          | Some (key, rest') =>
              match skip_ws rest' with
              | String ":" rest'' =>
                  match value fuel rest'' with
                  | Some (v, rest3) =>
                      let acc' := Dict.set acc key v in
                      match skip_ws rest3 with
                      | String "," rest4 => members fuel rest4 acc'
                      | String "}" rest4 => Some (JDict acc', rest4)
                      | _ => None
                      end
                  | None => None
                  end
              | _ => None
              end
          | None => None
          end
      | _ => None
      end
  end
with elements (fuel : nat) (s : string) (acc : list json) : option (json * string) :=
  match fuel with
  | 0 => None
  | S fuel =>
      match value fuel s with
      | Some (v, rest) =>
          match skip_ws rest with
          | String "," rest' => elements fuel rest' (acc ++ [v])
          | String "]" rest' => Some (JList (acc ++ [v]), rest')
          | _ => None
          end
      | None => None
      end
  end.

Definition ref_json_loads (s : string) : res json :=
  match value (S (String.length s)) s with
  | Some (v, rest) =>
      match skip_ws rest with
      | EmptyString => Ok v
      | _ => Raise (Exception "JSONDecodeError" "Extra data")
      end
  | None => Raise (Exception "JSONDecodeError" "Expecting value")
  end.

(** The client of the examples: every call answers [{'Failed': []}], except
    those of the tasks listed in [failing], which report one failed item. *)
Definition ref_send (failing : list nat) (task : nat) (queue_url : string)
    (entries : list entry) : res (list (string * json)) :=
  if existsb (Nat.eqb task) failing
  then Ok [("Failed", JList [JDict [("Id", JStr "0")]])]
  else Ok [("Failed", JList [])].

(** [repr] of a string without control characters: single quotes, unless
    the string holds a single quote and no double quote. *)
Definition has_char (c : ascii) (s : string) : bool :=
  existsb (Ascii.eqb c) (list_ascii_of_string s).

Fixpoint escaped (q : ascii) (s : string) : string :=
  match s with
  | EmptyString => EmptyString
  | String c s' =>
      if Ascii.eqb c q || Ascii.eqb c "\"
      then String "\" (String c (escaped q s'))
      else String c (escaped q s')
  end.

Definition repr_str (s : string) : string :=
  let q := if has_char "'" s && negb (has_char quote s) then quote else "'"%char in
  String q (escaped q s ++ String q EmptyString)%string.

(** [repr] of a value of the fragment.  A finite float is outside of it and
    has no text here. *)
Fixpoint ref_repr (v : json) : string :=
  match v with
  | JNull => "None"
  | JBool true => "True"
  | JBool false => "False"
  | JInt n => NilZero.string_of_int (Z.to_int n)
  | JFloat FNan => "nan"
  | JFloat (FInf false) => "inf"
  | JFloat (FInf true) => "-inf"
  | JFloat (FFin _ _) => EmptyString
  | JStr s => repr_str s
  | JList l =>
      ("[" ++ (fix elements (l : list json) : string :=
                match l with
                | [] => EmptyString
                | x :: l' =>
                    match l' with
                    | [] => ref_repr x
                    | _ :: _ => (ref_repr x ++ ", " ++ elements l')%string
                    end
                end) l ++ "]")%string
  | JDict d =>
      ("{" ++ (fix items (d : list (string * json)) : string :=
                match d with
                | [] => EmptyString
                | (k, x) :: d' =>
                    match d' with
                    | [] => (repr_str k ++ ": " ++ ref_repr x)%string
                    | _ :: _ => (repr_str k ++ ": " ++ ref_repr x ++ ", " ++ items d')%string
                    end
                end) d ++ "}")%string
  end.

(** The logger at its default level, [INFO]. *)
Definition ref_enabled (lvl : level) : bool :=
  match lvl with
  | DEBUG => false
  | _ => true
  end.

Definition env (failing : list nat) : Environment := {|
  SMALL_QUEUE_URL := "https://sqs.us-west-2.amazonaws.com/123456789/dev-small-products-queue";
  MEDIUM_QUEUE_URL := "https://sqs.us-west-2.amazonaws.com/123456789/dev-medium-products-queue";
  LARGE_QUEUE_URL := "https://sqs.us-west-2.amazonaws.com/123456789/dev-large-products-queue";
  isEnabledFor := ref_enabled;
  py_repr := ref_repr;
  b64decode := ref_b64decode;
  decode_utf8 := ref_decode_utf8;
  json_loads := ref_json_loads;
  send_message_batch := ref_send failing;
  result_timeout := fun _ => false;
  log_metrics := fun handler => handler;
  inject_lambda_context := fun handler => handler;
  capture_lambda_handler := fun handler => handler
|}.

End Reference.

(** ** Vocabulary of the properties *)

Definition queue_types : list string := ["SMALL"; "MEDIUM"; "LARGE"].

(** A [queueType] value that names one of the three categories. *)
Definition is_queue_type (v : json) : bool :=
  match v with
  | JStr c => existsb (String.eqb c) queue_types
  | _ => false
  end.

(** The count the fallback rule reads: [applicationCount], else
    [NumberOfApplications], else 0. *)
Definition count_of (d : list (string * json)) : json :=
  match Dict.get d "applicationCount" with
  | Some v => v
  | None => default (JInt 0%Z) (Dict.get d "NumberOfApplications")
  end.

(** The [queueType] field as [get] sees it: [None] when the key is absent. *)
Definition queue_type_of (d : list (string * json)) : json :=
  default JNull (Dict.get d "queueType").

(** Values on which the membership test of the pass-through rule does not
    raise: everything but a non-empty list or dict. *)
Definition testable (v : json) : bool :=
  match v with
  | JList (_ :: _) | JDict (_ :: _) => false
  | _ => true
  end.

(** The numbers of the language: [int], [bool] and [float]. *)
Definition numeric (v : json) : bool :=
  match v with
  | JInt _ | JBool _ | JFloat _ => true
  | _ => false
  end.

(** The value of a count that is an integer ([True] is 1, [False] is 0). *)
Definition int_value (v : json) : option Z :=
  match v with
  | JInt n => Some n
  | JBool b => Some (Z.b2z b)
  | _ => None
  end.

(** [k < f] for an int [k] and a float [f], exactly. *)
Definition int_lt_float (k : Z) (f : pyfloat) : bool :=
  match f with
  | FNan => false
  | FInf negative => negb negative
  | FFin m e => (if 0 <=? e then k <? m * 2 ^ e else k * 2 ^ (- e) <? m)%Z
  end.

(** Messages the classifier accepts: a dict whose [queueType] names a
    category, or whose [queueType] can be tested and whose count is a
    number. *)
Definition classifiable (message : json) : bool :=
  match message with
  | JDict d =>
      is_queue_type (queue_type_of d)
      || (testable (queue_type_of d) && numeric (count_of d))
  | _ => false
  end.

(** The error observations of a trace, by their tags. *)
Definition routing_errors (t : list obs) : list string :=
  omap (fun o => match o with RoutingErrors tag => Some tag | _ => None end) t.

(** The categories counted as processed. *)
Definition processed (t : list obs) : list json :=
  omap (fun o => match o with MessagesProcessed c => Some c | _ => None end) t.

(** The batch sizes recorded. *)
Definition batch_sizes (t : list obs) : list nat :=
  omap (fun o => match o with BatchSize n => Some n | _ => None end) t.

(** The calls made to the SQS client. *)
Definition sends (t : list obs) : list (string * list entry) :=
  omap (fun o => match o with SendMessageBatch u es => Some (u, es) | _ => None end) t.

(** The library pipeline of the decoder: base64, then UTF-8, then JSON. *)
Definition decode_payload (env : Environment) (v : json) : res json :=
  let? decoded_bytes := b64decode env v in
  let? message_str := decode_utf8 env decoded_bytes in
  json_loads env message_str.

(** A send task counts as succeeded when waiting for it does not time out
    and it returned [True]. *)
Definition task_succeeded (env : Environment) (f : future) : bool :=
  negb (result_timeout env (fut_task f)) && fut_value f.

(** The three shapes of a response. *)
Definition short_circuit_response : json :=
  JDict [("statusCode", JInt 200%Z); ("processedMessages", JInt 0%Z)].

Definition routing_response (success : bool) (small medium large : nat) : json :=
  JDict [("statusCode", JInt (if success then 200 else 500)%Z);
         ("processedMessages", JNat (small + medium + large));
         ("queueDistribution",
          JDict [("small", JNat small); ("medium", JNat medium); ("large", JNat large)])].

Definition failure_response (e : exn) : json :=
  JDict [("statusCode", JInt 500%Z); ("error", JStr (str_exn e))].

(** The threshold ladder on the count that was read. *)
Definition ladder (app_count : json) : res json :=
  let? small := py_le_int app_count 50%Z in
  if small then Ok (JStr "SMALL")
  else
    let? medium := py_le_int app_count 200%Z in
    if medium then Ok (JStr "MEDIUM") else Ok (JStr "LARGE").

(** The grouping dict with its three lists. *)
Definition groups (small medium large : list json) : list (string * list json) :=
  [("SMALL", small); ("MEDIUM", medium); ("LARGE", large)].

(** A message whose [queueType] field holds the category [c]. *)
Definition tagged_as (c : string) (message : json) : Prop :=
  exists d, message = JDict d /\ Dict.get d "queueType" = Some (JStr c).

Definition is_processed_obs (o : obs) : Prop :=
  match o with MessagesProcessed _ => True | _ => False end.

Definition no_send (o : obs) : Prop :=
  match o with SendMessageBatch _ _ => False | _ => True end.

Definition no_processed (o : obs) : Prop :=
  match o with MessagesProcessed _ => False | _ => True end.

Definition is_decode_obs (o : obs) : Prop :=
  match o with Log _ _ _ | RoutingErrors _ => True | _ => False end.

Definition handler_error_obs (e : exn) : list obs :=
  [Log ERROR "Lambda handler error" [("error", JStr (str_exn e))];
   RoutingErrors "handler_error"].

(** A decorator that hands on the response of the function it wraps. *)
Definition passes_response (decorator : (json -> M json) -> json -> M json) : Prop :=
  forall handler event t response,
    handler event = (t, Ok response) ->
    exists t', decorator handler event = (t', Ok response).

Definition no_messages_obs : list obs :=
  [Log WARNING "No valid messages to process" []].

(** The three ways an invocation can go. *)
Inductive invocation env (event : json) : Prop :=
| ShortCircuit t0
    (Hdecode : decode_phase env event = (t0, Ok []))
    (Hresponse : lambda_handler env event = (t0 ++ no_messages_obs, short_circuit_response))
| Dispatched t0 parsed_messages t1 small medium large t2 futures t3 tlog1 tlog2
    (Hdecode : decode_phase env event = (t0, Ok parsed_messages))
    (Hsome : parsed_messages <> [])
    (Hroute : route_messages_by_queue_type env parsed_messages
              = (t1, Ok (groups small medium large)))
    (Hsum : length small + length medium + length large = length parsed_messages)
    (Hcount : length (processed t1) = length parsed_messages)
    (Hall : Forall (fun message => classifiable message = true) parsed_messages)
    (Hsubmit : submit_all env (groups small medium large) = (t2, Ok futures))
    (Hawait : await_all env futures = (t3, Ok (forallb (task_succeeded env) futures)))
    (Hlog1 : Forall is_decode_obs tlog1)
    (Hlog2 : Forall is_decode_obs tlog2)
    (Hquiet2 : Forall no_processed t2)
    (Hquiet3 : Forall no_processed t3)
    (Hresponse : lambda_handler env event
                 = (t0 ++ t1 ++ tlog1 ++ (t2 ++ t3) ++ tlog2,
                    routing_response (forallb (task_succeeded env) futures)
                      (length small) (length medium) (length large)))
| Faulted t e
    (Hbody : handler_body env event = (t, Raise e))
    (Hcause : decode_phase env event = (t, Raise e)
              \/ exists t0 parsed_messages t1,
                   decode_phase env event = (t0, Ok parsed_messages)
                   /\ route_messages_by_queue_type env parsed_messages = (t1, Raise e)
                   /\ Exists (fun message => determine_queue_type env message = Raise e)
                        parsed_messages
                   /\ t = t0 ++ t1)
    (Hquiet : sends t = [])
    (Hresponse : lambda_handler env event = (t ++ handler_error_obs e, failure_response e)).

(** What decoding makes of one record, and of a run of records: the values
    that come out and pass the handler's [if parsed_message:] test. *)
Definition message_of env (record : json) : json :=
  match snd (parse_kafka_message env record) with
  | Ok message => message
  | Raise _ => JNull
  end.

Definition decoded_messages env (records : list json) : list json :=
  List.filter truthy (map (message_of env) records).

(** The records of a well-formed batch, partition after partition: the
    event is a dict, its [records] (when there) a dict, each partition's
    value a list. *)
Fixpoint partition_records (partitions : list (string * json)) : option (list json) :=
  match partitions with
  | [] => Some []
  | (_, JList records) :: rest => option_map (app records) (partition_records rest)
  | _ => None
  end.

Definition records_of (event : json) : option (list json) :=
  match event with
  | JDict e =>
      match default (JDict []) (Dict.get e "records") with
      | JDict partitions => partition_records partitions
      | _ => None
      end
  | _ => None
  end.

(** ** Vocabulary of the further properties *)

Definition is_dict (v : json) : bool :=
  match v with JDict _ => true | _ => false end.

(** The message as grouping stores it: its [queueType] set to the category. *)
Definition tagged (category message : json) : json :=
  match message with
  | JDict d => JDict (Dict.set d "queueType" category)
  | _ => message
  end.

Definition category_is (c : string) (category : json) : bool :=
  match category with JStr s => String.eqb s c | _ => false end.

(** The categories of the messages that classify, in order. *)
Definition categories env (messages : list json) : list json :=
  omap (fun message =>
          match determine_queue_type env message with
          | Ok category => Some category
          | Raise _ => None
          end) messages.

(** The messages that classify as [c], tagged, in the order they came. *)
Definition group_of env (c : string) (messages : list json) : list json :=
  omap (fun message =>
          match determine_queue_type env message with
          | Ok category =>
              if category_is c category then Some (tagged category message) else None
          | Raise _ => None
          end) messages.

(** All the messages that classify, tagged, in the order they came. *)
Definition tag_all env (messages : list json) : list json :=
  omap (fun message =>
          match determine_queue_type env message with
          | Ok category => Some (tagged category message)
          | Raise _ => None
          end) messages.

(** The entry built for the dict message at position [i] of a batch. *)
Definition entry_of env (i : nat) (message : json) : entry :=
  match message with
  | JDict d =>
      Entry i message (default (JStr "UNKNOWN") (Dict.get d "queueType"))
        (py_str (py_repr env) (default (JStr "unknown") (Dict.get d "productId")))
  | _ => Entry i message JNull EmptyString
  end.

(** The calls one category's messages lead to, and those of all three. *)
Definition plan_for env (queue_url : string) (messages : list json)
  : list (string * list entry) :=
  map (fun batch => (queue_url, imap (entry_of env) batch)) (batches messages).

Definition dispatch_plan env (small medium large : list json)
  : list (string * list entry) :=
  plan_for env (SMALL_QUEUE_URL env) small
  ++ plan_for env (MEDIUM_QUEUE_URL env) medium
  ++ plan_for env (LARGE_QUEUE_URL env) large.

(** The message bodies a list of calls carries, call after call. *)
Definition bodies (calls : list (string * list entry)) : list json :=
  concat (map (fun call => map entry_MessageBody (snd call)) calls).

(** What the client answers to a call, read as the task's outcome. *)
Definition reply_ok (reply : res (list (string * json))) : bool :=
  match reply with
  | Ok response => negb (has_failed response)
  | Raise _ => false
  end.

Definition reply_errors (reply : res (list (string * json))) : list string :=
  match reply with
  | Ok response => if has_failed response then ["sqs_batch_failure"] else []
  | Raise _ => ["sqs_send_error"]
  end.

(** Observations that are log records or parse errors. *)
Definition is_parse_obs (o : obs) : Prop :=
  match o with
  | Log _ _ _ => True
  | RoutingErrors tag => tag = "parse_error"
  | _ => False
  end.

(** Observations of a send task: anything but a processed count, a batch
    size, or an error that is not one of the task's two. *)
Definition is_task_obs (o : obs) : Prop :=
  match o with
  | Log _ _ _ | SendMessageBatch _ _ => True
  | RoutingErrors tag => tag = "sqs_batch_failure" \/ tag = "sqs_send_error"
  | _ => False
  end.

(** The reference environment with the waits of the listed tasks timing
    out. *)
Definition slow_env (late : list nat) : Environment := {|
  SMALL_QUEUE_URL := SMALL_QUEUE_URL (Reference.env []);
  MEDIUM_QUEUE_URL := MEDIUM_QUEUE_URL (Reference.env []);
  LARGE_QUEUE_URL := LARGE_QUEUE_URL (Reference.env []);
  isEnabledFor := Reference.ref_enabled;
  py_repr := Reference.ref_repr;
  b64decode := Reference.ref_b64decode;
  decode_utf8 := Reference.ref_decode_utf8;
  json_loads := Reference.ref_json_loads;
  send_message_batch := Reference.ref_send [];
  result_timeout := fun task => existsb (Nat.eqb task) late;
  log_metrics := fun handler => handler;
  inject_lambda_context := fun handler => handler;
  capture_lambda_handler := fun handler => handler
|}.

(** The reference environment with the logger set to [DEBUG]. *)
Definition debug_env : Environment := {|
  SMALL_QUEUE_URL := SMALL_QUEUE_URL (Reference.env []);
  MEDIUM_QUEUE_URL := MEDIUM_QUEUE_URL (Reference.env []);
  LARGE_QUEUE_URL := LARGE_QUEUE_URL (Reference.env []);
  isEnabledFor := fun _ => true;
  py_repr := Reference.ref_repr;
  b64decode := Reference.ref_b64decode;
  decode_utf8 := Reference.ref_decode_utf8;
  json_loads := Reference.ref_json_loads;
  send_message_batch := Reference.ref_send [];
  result_timeout := fun _ => false;
  log_metrics := fun handler => handler;
  inject_lambda_context := fun handler => handler;
  capture_lambda_handler := fun handler => handler
|}.

(** The payload [{}]. *)
Definition payload_empty : string := "e30=".

(** ** Example events

    A batch of one partition, of records whose [value] fields are the given
    base64 texts; and three payloads: [{"productId": 123,
    "applicationCount": 75}], [{"applicationCount": "abc"}] and the text
    [invalid json]. *)

Definition batch_of (values : list string) : json :=
  JDict [("records",
          JDict [("product-applications-updates-dev-0",
                  JList (map (fun v => JDict [("value", JStr v)]) values))])].

Definition payload_medium : string :=
  "eyJwcm9kdWN0SWQiOiAxMjMsICJhcHBsaWNhdGlvbkNvdW50IjogNzV9".

Definition payload_text_count : string :=
  "eyJhcHBsaWNhdGlvbkNvdW50IjogImFiYyJ9".

Definition payload_invalid : string := "aW52YWxpZCBqc29u".

(** ** Facts about dictionaries *)

Lemma get_set_eq {V} (d : list (string * V)) k v :
  Dict.get (Dict.set d k v) k = Some v.
Proof.
  induction d as [|[k' v'] d IH]; simpl.
  - now rewrite String.eqb_refl.
  - destruct (String.eqb k' k) eqn:E; simpl; rewrite E; auto.
Qed.

Lemma get_set_ne {V} (d : list (string * V)) k k' v :
  k <> k' -> Dict.get (Dict.set d k v) k' = Dict.get d k'.
Proof.
  intros Hne. induction d as [|[k0 v0] d IH]; simpl.
  - destruct (String.eqb k k') eqn:E; auto.
    apply String.eqb_eq in E. contradiction.
  - destruct (String.eqb k0 k) eqn:E; simpl.
    + apply String.eqb_eq in E. subst k0.
      destruct (String.eqb k k') eqn:E'; auto.
      apply String.eqb_eq in E'. contradiction.
    + now rewrite IH.
Qed.

(** ** Facts about the effect monad *)

Lemma bind_Ok {A B} (m : M A) (k : A -> M B) t1 a :
  m = (t1, Ok a) -> bind m k = (t1 ++ fst (k a), snd (k a)).
Proof. intros ->. simpl. now destruct (k a). Qed.

Lemma bind_Raise {A B} (m : M A) (k : A -> M B) t e :
  m = (t, Raise e) -> bind m k = (t, Raise e).
Proof. now intros ->. Qed.

Lemma bind_trace {A B} (P : obs -> Prop) (m : M A) (k : A -> M B) :
  Forall P (fst m) -> (forall a, Forall P (fst (k a))) -> Forall P (fst (bind m k)).
Proof.
  destruct m as [t [a|e]]; simpl; intros Hm Hk; [|assumption].
  specialize (Hk a). destruct (k a) as [t' r]. simpl in *.
  apply Forall_app. auto.
Qed.

Lemma try_except_trace {A} (P : obs -> Prop) (m : M A) (h : exn -> M A) :
  Forall P (fst m) -> (forall e, Forall P (fst (h e))) -> Forall P (fst (try_except m h)).
Proof.
  destruct m as [t [a|e]]; simpl; intros Hm Hh; [assumption|].
  specialize (Hh e). destruct (h e) as [t' r]. simpl in *.
  apply Forall_app. auto.
Qed.

Lemma for_each_trace {A S} (P : obs -> Prop) (body : S -> A -> M S) l s :
  (forall s x, Forall P (fst (body s x))) -> Forall P (fst (for_each l s body)).
Proof.
  intros Hbody. revert s. induction l as [|x l IH]; intros s; simpl.
  - constructor.
  - apply bind_trace; auto.
Qed.

Lemma lift_trace {A} (P : obs -> Prop) (r : res A) : Forall P (fst (lift r)).
Proof. constructor. Qed.

Lemma ret_trace {A} (P : obs -> Prop) (a : A) : Forall P (fst (ret a)).
Proof. constructor. Qed.

Lemma emit_trace (P : obs -> Prop) (o : obs) : P o -> Forall P (fst (emit o)).
Proof. intros H. simpl. auto. Qed.

(** ** Batcher *)

Lemma py_range_slices {A} (l : list A) start step :
  0 < step ->
  concat (map (fun i => py_slice l i (i + step)) (py_range start (length l) step))
  = drop start l.
Proof.
  intros Hstep. funelim (py_range start (length l) step).
  - simpl. rewrite H by assumption.
    unfold py_slice. replace (start + step - start) with step by lia.
    rewrite <- (drop_drop l step start).
    apply take_drop.
  - simpl. symmetry. apply drop_ge. lia.
Qed.

Lemma py_range_count start stop :
  length (py_range start stop 10) = (stop - start + 9) / 10.
Proof.
  funelim (py_range start stop 10); simpl length.
  - rewrite H.
    destruct (le_lt_dec 10 (stop - start)) as [Hge|Hlt].
    + replace (stop - start + 9) with (stop - (start + 10) + 9 + 1 * 10) by lia.
      rewrite Nat.div_add by lia. lia.
    + replace (stop - (start + 10) + 9) with 9 by lia.
      change (9 / 10) with 0.
      apply (Nat.div_unique _ 10 1 (stop - start - 1)); lia.
  - replace (stop - start + 9) with 9 by lia. reflexivity.
Qed.

Lemma py_slice_length {A} (l : list A) i j : length (py_slice l i j) <= j - i.
Proof. unfold py_slice. rewrite length_take. lia. Qed.

(** C4. Chunking a list of n messages gives ceil(n/10) batches (none for the
    empty list), each of at most 10 messages, and the batches put end to end
    are the list again. *)
Theorem batches_chunking (messages : list json) :
  length (batches messages) = (length messages + 9) / 10
  /\ (length messages <= 10 * length (batches messages) < length messages + 10)
  /\ Forall (fun batch => length batch <= 10) (batches messages)
  /\ concat (batches messages) = messages.
Proof.
  assert (Hlen : length (batches messages) = (length messages + 9) / 10).
  { unfold batches. rewrite length_map, py_range_count.
    now rewrite Nat.sub_0_r. }
  split; [exact Hlen|]. split; [|split].
  - rewrite Hlen.
    pose proof (Nat.div_mod_eq (length messages + 9) 10) as Hdiv.
    pose proof (Nat.mod_upper_bound (length messages + 9) 10) as Hmod.
    lia.
  - unfold batches. apply Forall_map, Forall_forall. intros i _. simpl.
    pose proof (py_slice_length messages i (i + BATCH_SIZE)) as Hle.
    unfold BATCH_SIZE in *. lia.
  - unfold batches. rewrite py_range_slices by (unfold BATCH_SIZE; lia).
    reflexivity.
Qed.

(** ** Classifier *)

Lemma mem_queue_types {V} (a b c : V) (s : string) :
  Dict.mem [("SMALL", a); ("MEDIUM", b); ("LARGE", c)] s
  = existsb (String.eqb s) queue_types.
Proof.
  cbv [Dict.mem Dict.get queue_types existsb].
  rewrite (String.eqb_sym "SMALL"), (String.eqb_sym "MEDIUM"), (String.eqb_sym "LARGE").
  destruct (String.eqb s "SMALL"), (String.eqb s "MEDIUM"), (String.eqb s "LARGE");
    reflexivity.
Qed.

Lemma is_queue_type_inv (v : json) :
  is_queue_type v = true ->
  v = JStr "SMALL" \/ v = JStr "MEDIUM" \/ v = JStr "LARGE".
Proof.
  destruct v as [| | | |s| |]; simpl; try discriminate.
  destruct (String.eqb_spec s "SMALL"); [subst; auto|].
  destruct (String.eqb_spec s "MEDIUM"); [subst; auto|].
  destruct (String.eqb_spec s "LARGE"); [subst; auto|].
  discriminate.
Qed.

(** The test [v and v in d] against a dict keyed by the three categories. *)
Lemma membership_test {V} (a b c : V) (v : json) :
  (if truthy v then py_in v [("SMALL", a); ("MEDIUM", b); ("LARGE", c)] else Ok false)
  = if testable v then Ok (is_queue_type v)
    else Raise (TypeError ("unhashable type: '" ++ type_name v ++ "'")).
Proof.
  destruct v as [|x|n|f|s|l|d]; simpl; try reflexivity.
  - now destruct x.
  - now destruct (negb (n =? 0)%Z).
  - now destruct f as [| |m e]; [| |destruct (negb (m =? 0)%Z)].
  - rewrite mem_queue_types. simpl.
    destruct (String.eqb_spec s ""); [subst|]; reflexivity.
  - now destruct l.
  - now destruct d.
Qed.

Lemma determine_queue_type_dict env d :
  determine_queue_type env (JDict d)
  = if testable (queue_type_of d) then
      if is_queue_type (queue_type_of d) then Ok (queue_type_of d)
      else ladder (count_of d)
    else Raise (TypeError ("unhashable type: '" ++ type_name (queue_type_of d) ++ "'")).
Proof.
  unfold determine_queue_type, QUEUE_MAPPINGS. cbn [py_get res_bind].
  change (match Dict.get d "queueType" with Some v => v | None => JNull end)
    with (queue_type_of d).
  rewrite membership_test.
  destruct (testable (queue_type_of d)); [|reflexivity]. cbn [res_bind].
  destruct (is_queue_type (queue_type_of d)); [reflexivity|].
  unfold ladder, count_of.
  destruct (Dict.get d "applicationCount"), (Dict.get d "NumberOfApplications");
    reflexivity.
Qed.

Lemma determine_queue_type_not_dict env message :
  (forall d, message <> JDict d) ->
  determine_queue_type env message = Raise (AttributeError message "get").
Proof. intros H. destruct message; try reflexivity. now destruct (H d). Qed.

Lemma is_queue_type_testable v : is_queue_type v = true -> testable v = true.
Proof. now destruct v. Qed.

Lemma ladder_valid v r :
  ladder v = Ok r -> is_queue_type r = true.
Proof.
  unfold ladder.
  destruct (py_le_int v 50) as [[|]|]; simpl; [now intros [= <-]| |discriminate].
  destruct (py_le_int v 200) as [[|]|]; simpl; [| |discriminate];
    now intros [= <-].
Qed.

Lemma ladder_numeric v : numeric v = true <-> exists r, ladder v = Ok r.
Proof.
  split.
  - unfold ladder.
    destruct v as [|b|n|f| | |]; simpl; try discriminate; intros _;
      repeat match goal with |- context [if ?c then _ else _] => destruct c end;
      eauto.
  - intros [r H]. now destruct v.
Qed.

Lemma determine_queue_type_valid env message r :
  determine_queue_type env message = Ok r -> is_queue_type r = true.
Proof.
  destruct message as [| | | | | |d]; try discriminate.
  rewrite determine_queue_type_dict.
  destruct (testable (queue_type_of d)); [|discriminate].
  destruct (is_queue_type (queue_type_of d)) eqn:E.
  - now intros [= <-].
  - apply ladder_valid.
Qed.

Lemma classifiable_iff env message :
  classifiable message = true <-> exists r, determine_queue_type env message = Ok r.
Proof.
  destruct message as [| | | | | |d];
    try (split; [discriminate | intros [r H]; discriminate]).
  rewrite determine_queue_type_dict. simpl.
  destruct (is_queue_type (queue_type_of d)) eqn:E; simpl.
  - rewrite (is_queue_type_testable _ E). split; eauto.
  - destruct (testable (queue_type_of d)); simpl.
    + apply ladder_numeric.
    + split; [discriminate | intros [r H]; discriminate].
Qed.

Lemma float_le_int_lt f k :
  f <> FNan -> float_le_int f k = negb (int_lt_float k f).
Proof.
  destruct f as [|neg|m e]; simpl; intros H.
  - contradiction.
  - now destruct neg.
  - destruct (0 <=? e)%Z; [apply Z.leb_antisym|].
    apply Z.leb_antisym.
Qed.

Lemma int_lt_float_mono f :
  int_lt_float 200 f = true -> int_lt_float 50 f = true.
Proof.
  destruct f as [|neg|m e]; simpl; auto.
  destruct (0 <=? e)%Z eqn:He; rewrite !Z.ltb_lt; [lia|].
  apply Z.leb_gt in He.
  assert (0 < 2 ^ (- e))%Z by (apply Z.pow_pos_nonneg; lia).
  set (p := (2 ^ (- e))%Z) in *. lia.
Qed.

(** C1, amended.  A [queueType] that names a category is returned as it is,
    whatever the counts.  Otherwise, when [queueType] is absent, empty or a
    scalar: for an integer count n the result is SMALL iff n <= 50, MEDIUM
    iff 51 <= n <= 200, LARGE iff n > 200; for a float count x other than NaN
    it is SMALL iff x <= 50, MEDIUM iff 50 < x <= 200, LARGE iff x > 200; a
    NaN count gives LARGE. *)
Theorem determine_queue_type_rule env (d : list (string * json)) :
  (is_queue_type (queue_type_of d) = true ->
   determine_queue_type env (JDict d) = Ok (queue_type_of d))
  /\ (is_queue_type (queue_type_of d) = false ->
      testable (queue_type_of d) = true ->
      (forall n, int_value (count_of d) = Some n ->
         exists c, determine_queue_type env (JDict d) = Ok (JStr c)
           /\ (c = "SMALL" <-> n <= 50)%Z
           /\ (c = "MEDIUM" <-> 51 <= n <= 200)%Z
           /\ (c = "LARGE" <-> n > 200)%Z)
      /\ (forall f, count_of d = JFloat f -> f <> FNan ->
         exists c, determine_queue_type env (JDict d) = Ok (JStr c)
           /\ (c = "SMALL" <-> float_le_int f 50 = true)
           /\ (c = "MEDIUM" <-> int_lt_float 50 f = true /\ float_le_int f 200 = true)
           /\ (c = "LARGE" <-> int_lt_float 200 f = true))
      /\ (count_of d = JFloat FNan ->
          determine_queue_type env (JDict d) = Ok (JStr "LARGE"))).
Proof.
  rewrite determine_queue_type_dict. split.
  - intros E. now rewrite E, (is_queue_type_testable _ E).
  - intros -> ->. split; [|split].
    + intros n Hn.
      assert (Hle : forall k, py_le_int (count_of d) k = Ok (n <=? k)%Z).
      { intros k. destruct (count_of d); simpl in *; try discriminate;
          now injection Hn as <-. }
      unfold ladder. rewrite !Hle. simpl.
      destruct (Z.leb_spec n 50); simpl.
      * exists "SMALL". repeat split; intros; try lia; discriminate.
      * destruct (Z.leb_spec n 200); simpl.
        -- exists "MEDIUM". repeat split; intros; try lia; discriminate.
        -- exists "LARGE". repeat split; intros; try lia; discriminate.
    + intros f -> Hnan. unfold ladder. simpl.
      pose proof (float_le_int_lt f 50 Hnan) as H50.
      pose proof (float_le_int_lt f 200 Hnan) as H200.
      pose proof (int_lt_float_mono f) as Hmono.
      destruct (float_le_int f 50) eqn:E50; simpl.
      * exists "SMALL". apply negb_true_iff in H50 || symmetry in H50.
        destruct (int_lt_float 50 f); [discriminate|].
        destruct (int_lt_float 200 f); [now specialize (Hmono eq_refl)|].
        repeat split; intros; try discriminate; intuition discriminate.
      * destruct (float_le_int f 200) eqn:E200; simpl.
        -- exists "MEDIUM".
           destruct (int_lt_float 50 f); [|discriminate].
           destruct (int_lt_float 200 f); [discriminate|].
           repeat split; intros; try discriminate; intuition discriminate.
        -- exists "LARGE".
           destruct (int_lt_float 200 f); [|discriminate].
           destruct (int_lt_float 50 f); [|discriminate].
           repeat split; intros; try discriminate; intuition discriminate.
    + intros ->. reflexivity.
Qed.

(** ** Grouper *)

Lemma determine_queue_type_Ok_dict env message r :
  determine_queue_type env message = Ok r -> exists d, message = JDict d.
Proof. destruct message; try discriminate. eauto. Qed.

Lemma route_message_Raise env g message e :
  determine_queue_type env message = Raise e ->
  route_message env g message = ([], Raise e).
Proof. intros H. unfold route_message. now rewrite H. Qed.

Lemma route_message_Ok env small medium large message r :
  determine_queue_type env message = Ok r ->
  exists small' medium' large',
    route_message env (groups small medium large) message
    = ([MessagesProcessed r],
       Ok (groups (small ++ small') (medium ++ medium') (large ++ large')))
    /\ length small' + length medium' + length large' = 1
    /\ Forall (tagged_as "SMALL") small'
    /\ Forall (tagged_as "MEDIUM") medium'
    /\ Forall (tagged_as "LARGE") large'.
Proof.
  intros H.
  destruct (determine_queue_type_Ok_dict _ _ _ H) as [d ->].
  pose proof (determine_queue_type_valid _ _ _ H) as Hvalid.
  unfold route_message. rewrite H.
  pose (message' := fun c => JDict (Dict.set d "queueType" (JStr c))).
  assert (Htag : forall c, tagged_as c (message' c)).
  { intros c. exists (Dict.set d "queueType" (JStr c)).
    split; [reflexivity | apply get_set_eq]. }
  destruct (is_queue_type_inv _ Hvalid) as [-> | [-> | ->]].
  - exists [message' "SMALL"], [], []. rewrite !app_nil_r.
    repeat split; auto.
  - exists [], [message' "MEDIUM"], []. rewrite !app_nil_r.
    repeat split; auto.
  - exists [], [], [message' "LARGE"]. rewrite !app_nil_r.
    repeat split; auto.
Qed.

Lemma route_messages_from env (messages : list json) :
  forall small medium large,
    match for_each messages (groups small medium large) (route_message env) with
    | (t, Ok g) =>
        exists small' medium' large',
          g = groups (small ++ small') (medium ++ medium') (large ++ large')
          /\ length small' + length medium' + length large' = length messages
          /\ Forall (tagged_as "SMALL") small'
          /\ Forall (tagged_as "MEDIUM") medium'
          /\ Forall (tagged_as "LARGE") large'
          /\ length t = length messages
          /\ Forall (fun message => classifiable message = true) messages
    | (t, Raise e) =>
        Exists (fun message => determine_queue_type env message = Raise e) messages
    end
    /\ Forall is_processed_obs
         (fst (for_each messages (groups small medium large) (route_message env))).
Proof.
  induction messages as [|message messages IH]; intros small medium large.
  - simpl. split; [|constructor].
    exists [], [], []. rewrite !app_nil_r. repeat split; constructor.
  - cbn [for_each].
    destruct (determine_queue_type env message) as [r|e] eqn:Hdet.
    + destruct (route_message_Ok env small medium large message r Hdet)
        as (s1 & m1 & l1 & Hstep & Hone & Hs1 & Hm1 & Hl1).
      rewrite (bind_Ok _ _ _ _ Hstep).
      specialize (IH (small ++ s1) (medium ++ m1) (large ++ l1)).
      destruct (for_each messages _ (route_message env)) as [t [g|e]];
        cbn [fst snd] in *; destruct IH as [IH Htrace].
      * split; [|constructor; [exact I | exact Htrace]].
        destruct IH as (s2 & m2 & l2 & -> & Hlen & Hs2 & Hm2 & Hl2 & Ht & Hall).
        exists (s1 ++ s2), (m1 ++ m2), (l1 ++ l2).
        rewrite !app_assoc, !length_app. cbn [length app].
        repeat split; try apply Forall_app; auto; try lia.
        constructor; [|exact Hall]. apply (classifiable_iff env). eauto.
      * split; [|constructor; [exact I | exact Htrace]].
        now apply Exists_cons_tl.
    + rewrite (bind_Raise _ _ _ _ (route_message_Raise env _ message e Hdet)).
      split; [|constructor]. now apply Exists_cons_hd.
Qed.

Lemma route_messages_classifiable env (messages : list json) small medium large :
  Forall (fun message => classifiable message = true) messages ->
  exists t g, for_each messages (groups small medium large) (route_message env) = (t, Ok g).
Proof.
  intros Hall.
  pose proof (route_messages_from env messages small medium large) as [H _].
  destruct (for_each messages _ (route_message env)) as [t [g|e]]; [eauto|].
  apply Exists_exists in H as (message & Hin & Hraise).
  rewrite Forall_forall in Hall. specialize (Hall _ Hin).
  apply (classifiable_iff env) in Hall as [r Hr]. congruence.
Qed.

(** C3, amended.  For a list of n messages, each a dict whose [queueType]
    names a category or whose [queueType] is absent, empty or a scalar and
    whose count is a number, grouping returns a mapping with exactly the keys
    SMALL, MEDIUM, LARGE whose lists have n messages in all, and every message
    in the list of category c has its [queueType] field set to c. *)
Theorem route_messages_by_queue_type_groups env (parsed_messages : list json) :
  Forall (fun message => classifiable message = true) parsed_messages ->
  exists t small medium large,
    route_messages_by_queue_type env parsed_messages
    = (t, Ok [("SMALL", small); ("MEDIUM", medium); ("LARGE", large)])
    /\ length small + length medium + length large = length parsed_messages
    /\ Forall (tagged_as "SMALL") small
    /\ Forall (tagged_as "MEDIUM") medium
    /\ Forall (tagged_as "LARGE") large.
Proof.
  intros Hall. unfold route_messages_by_queue_type.
  destruct (route_messages_classifiable env parsed_messages [] [] [] Hall)
    as (t & g & Hrun).
  pose proof (route_messages_from env parsed_messages [] [] []) as [H _].
  unfold groups in *. rewrite Hrun in H.
  destruct H as (small & medium & large & -> & Hlen & Hs & Hm & Hl & _).
  exists t, small, medium, large. rewrite Hrun. auto.
Qed.

Lemma processed_only_no_errors (t : list obs) :
  Forall is_processed_obs t -> routing_errors t = [].
Proof.
  induction 1 as [|o t Ho _ IH]; [reflexivity|].
  destruct o; try contradiction. exact IH.
Qed.

(** Where classification returns: exactly on the messages that are a dict
    whose [queueType] names a category, or whose [queueType] is absent, empty
    or a scalar and whose count is a number.  What it returns is then one of
    the three categories, never [None], so grouping never takes its
    undetermined-category branch. *)
Lemma determine_queue_type_returns_category env :
  (forall message,
     classifiable message = true <-> exists r, determine_queue_type env message = Ok r)
  /\ (forall message r,
        determine_queue_type env message = Ok r ->
        r = JStr "SMALL" \/ r = JStr "MEDIUM" \/ r = JStr "LARGE")
  /\ (forall parsed_messages,
        ~ In "undetermined_queue_type"
            (routing_errors (fst (route_messages_by_queue_type env parsed_messages)))).
Proof.
  split; [|split].
  - intros message. apply classifiable_iff.
  - intros message r H. apply is_queue_type_inv.
    exact (determine_queue_type_valid env message r H).
  - intros parsed_messages.
    pose proof (route_messages_from env parsed_messages [] [] []) as [_ H].
    unfold route_messages_by_queue_type. fold (groups [] [] []).
    rewrite (processed_only_no_errors _ H). intros [].
Qed.

(** ** Dispatcher *)

Ltac trace_step :=
  match goal with
  | |- Forall _ (fst (bind _ _)) => apply bind_trace; [|intros ?]
  | |- Forall _ (fst (try_except _ _)) => apply try_except_trace; [|intros ?]
  | |- Forall _ (fst (for_each _ _ _)) => apply for_each_trace; intros ? ?
  | |- Forall _ (fst (lift _)) => apply lift_trace
  | |- Forall _ (fst (ret _)) => apply ret_trace
  | |- Forall _ (fst (emit _)) => apply emit_trace; exact I
  | |- Forall _ (fst (pair _ _)) => cbn [fst]; repeat constructor; exact I
  | |- Forall _ (fst (if ?c then _ else _)) => destruct c
  | |- Forall _ (fst (match ?x with _ => _ end)) => destruct x
  end.

(** Runs a call to the logger whose keys are plain. *)
Ltac logger_step :=
  cbn [logger overwritten Dict.keys List.find existsb map fst orb andb
       LogRecord_attributes String.eqb Ascii.eqb Bool.eqb].

Ltac trace_solve :=
  unfold logger, record_routing_error, record_batch_size, record_message_processed;
  repeat trace_step.

Lemma send_to_sqs_batch_returns env task messages queue_url :
  exists t value, send_to_sqs_batch env task messages queue_url = (t, Ok value).
Proof.
  unfold send_to_sqs_batch.
  destruct (make_entries env 0 messages) as [entries|e]; simpl; [|eauto].
  destruct (send_message_batch env task queue_url entries) as [response|e];
    simpl; [|eauto].
  destruct (has_failed response); simpl; eauto.
Qed.

Lemma send_to_sqs_batch_trace env task messages queue_url :
  Forall no_processed (fst (send_to_sqs_batch env task messages queue_url)).
Proof. unfold send_to_sqs_batch. trace_solve. Qed.

Lemma submit_returns env queue_type queue_url futures batch :
  exists t value,
    submit env queue_type queue_url futures batch
    = (t, Ok (futures ++ [Future (length futures) value queue_type (length batch)])).
Proof.
  unfold submit.
  destruct (send_to_sqs_batch_returns env (length futures) batch queue_url)
    as (t & value & ->).
  exists t, value. simpl. now rewrite app_nil_r.
Qed.

Lemma submit_batches_returns env queue_type queue_url (bs : list (list json)) :
  forall futures,
  exists t new,
    for_each bs futures (submit env queue_type queue_url) = (t, Ok (futures ++ new))
    /\ length new = length bs.
Proof.
  induction bs as [|batch bs IH]; intros futures; simpl.
  - exists [], []. now rewrite app_nil_r.
  - destruct (submit_returns env queue_type queue_url futures batch)
      as (t & value & ->). simpl.
    destruct (IH (futures ++ [Future (length futures) value queue_type (length batch)]))
      as (t' & new & -> & Hlen).
    eexists _, (_ :: new). rewrite <- app_assoc. simpl. split; [reflexivity|]. lia.
Qed.

Lemma submit_group_returns env futures queue_type messages :
  In queue_type queue_types ->
  exists t new,
    submit_group env futures (queue_type, messages) = (t, Ok (futures ++ new))
    /\ length new = length (batches messages).
Proof.
  intros Hin. unfold submit_group.
  destruct messages as [|message messages].
  - exists [], []. rewrite app_nil_r. split; reflexivity.
  - assert (exists url, py_getitem (QUEUE_MAPPINGS env) queue_type = Ok url) as [url ->].
    { simpl in Hin. destruct Hin as [<- | [<- | [<- | []]]]; eexists; reflexivity. }
    destruct (submit_batches_returns env queue_type url
                (batches (message :: messages)) futures) as (t & new & Hrun & Hlen).
    exists t, new. split; [|exact Hlen].
    cbn [lift bind]. rewrite Hrun. reflexivity.
Qed.

Lemma submit_all_returns env small medium large :
  exists t futures,
    submit_all env (groups small medium large) = (t, Ok futures)
    /\ length futures
       = length (batches small) + length (batches medium) + length (batches large).
Proof.
  unfold submit_all, groups. cbn [for_each].
  destruct (submit_group_returns env [] "SMALL" small) as (t1 & f1 & -> & H1);
    [simpl; auto|].
  cbn [bind app].
  destruct (submit_group_returns env f1 "MEDIUM" medium) as (t2 & f2 & -> & H2);
    [simpl; auto|].
  cbn [bind app].
  destruct (submit_group_returns env (f1 ++ f2) "LARGE" large) as (t3 & f3 & -> & H3);
    [simpl; auto|].
  cbn [bind app ret].
  eexists _, _. split; [reflexivity|]. rewrite !length_app. lia.
Qed.

Lemma await_returns env all_successful f :
  exists t,
    await env all_successful f = (t, Ok (all_successful && task_succeeded env f))
    /\ batch_sizes t = (if task_succeeded env f then [fut_batch_size f] else [])
    /\ Forall no_processed t /\ Forall no_send t.
Proof.
  unfold await, future_result, task_succeeded.
  destruct (result_timeout env (fut_task f)); simpl.
  - eexists. rewrite andb_false_r. repeat split; repeat constructor.
  - destruct (fut_value f); simpl.
    + eexists. rewrite andb_true_r. repeat split; repeat constructor.
    + eexists. rewrite andb_false_r. repeat split; repeat constructor.
Qed.

Lemma await_all_from env (futures : list future) :
  forall all_successful,
  exists t,
    for_each futures all_successful (await env)
    = (t, Ok (all_successful && forallb (task_succeeded env) futures))
    /\ batch_sizes t = map fut_batch_size (List.filter (task_succeeded env) futures)
    /\ Forall no_processed t /\ Forall no_send t.
Proof.
  induction futures as [|f futures IH]; intros all_successful; cbn [for_each].
  - exists []. simpl. rewrite andb_true_r. repeat split; constructor.
  - destruct (await_returns env all_successful f) as (t1 & -> & Hb1 & Hp1 & Hs1).
    destruct (IH (all_successful && task_succeeded env f)) as (t2 & H2 & Hb2 & Hp2 & Hs2).
    exists (t1 ++ t2). cbn [bind]. rewrite H2.
    split; [|split; [|split; apply Forall_app; auto]].
    + cbn [forallb]. now rewrite andb_assoc.
    + unfold batch_sizes in *. rewrite omap_app, Hb1, Hb2. cbn [List.filter].
      destruct (task_succeeded env f); reflexivity.
Qed.

Lemma send_batches_concurrently_split env grouped_messages :
  send_batches_concurrently env grouped_messages
  = bind (submit_all env grouped_messages) (await_all env).
Proof. reflexivity. Qed.

Lemma submit_all_trace env grouped_messages :
  Forall no_processed (fst (submit_all env grouped_messages)).
Proof.
  unfold submit_all. apply for_each_trace. intros futures [queue_type messages].
  unfold submit_group. destruct messages; [apply ret_trace|].
  apply bind_trace; [apply lift_trace|]. intros queue_url.
  apply for_each_trace. intros fs batch. unfold submit.
  apply bind_trace; [apply send_to_sqs_batch_trace|]. intros value. apply ret_trace.
Qed.

(** ** Orchestrator *)

Lemma parse_kafka_message_trace env record :
  Forall is_decode_obs (fst (parse_kafka_message env record)).
Proof. unfold parse_kafka_message. trace_solve. Qed.

Lemma decode_phase_trace env event :
  Forall is_decode_obs (fst (decode_phase env event)).
Proof.
  unfold decode_phase. trace_solve.
  unfold decode_partition.
  match goal with |- context [let '(_, _) := ?p in _] => destruct p end.
  match goal with |- context [let '(_, _) := ?p in _] => destruct p end.
  trace_solve. unfold decode_records.
  apply bind_trace; [apply parse_kafka_message_trace|]. intros ?. apply ret_trace.
Qed.

Lemma decode_obs_silent (t : list obs) :
  Forall is_decode_obs t -> processed t = [] /\ sends t = [] /\ batch_sizes t = [].
Proof.
  induction 1 as [|o t Ho _ IH]; [auto|].
  destruct o; try contradiction; exact IH.
Qed.

Lemma processed_obs_count (t : list obs) :
  Forall is_processed_obs t -> length (processed t) = length t /\ sends t = [].
Proof.
  induction 1 as [|o t Ho _ [IH1 IH2]]; [auto|].
  destruct o; try contradiction. simpl. auto.
Qed.


(** What the dispatch phase does, by the outcome of grouping. *)
Lemma dispatch_phase_run env (parsed_messages : list json) :
  match route_messages_by_queue_type env parsed_messages with
  | (t1, Raise e) =>
      dispatch_phase env parsed_messages = (t1, Raise e)
      /\ Exists (fun message => determine_queue_type env message = Raise e)
           parsed_messages
      /\ sends t1 = []
  | (t1, Ok g) =>
      exists small medium large t2 futures t3 tlog1 tlog2,
        g = groups small medium large
        /\ length small + length medium + length large = length parsed_messages
        /\ length (processed t1) = length parsed_messages
        /\ Forall (fun message => classifiable message = true) parsed_messages
        /\ submit_all env g = (t2, Ok futures)
        /\ await_all env futures = (t3, Ok (forallb (task_succeeded env) futures))
        /\ dispatch_phase env parsed_messages
           = (t1 ++ tlog1 ++ (t2 ++ t3) ++ tlog2,
              Ok (routing_response (forallb (task_succeeded env) futures)
                    (length small) (length medium) (length large)))
        /\ Forall is_decode_obs tlog1 /\ Forall is_decode_obs tlog2
        /\ Forall no_processed t2 /\ Forall no_processed t3
  end.
Proof.
  pose proof (route_messages_from env parsed_messages [] [] []) as [H Htrace].
  unfold dispatch_phase, route_messages_by_queue_type in *.
  fold (groups [] [] []).
  destruct (for_each parsed_messages (groups [] [] []) (route_message env))
    as [t1 [g|e]]; cbn [fst] in Htrace.
  - destruct H as (small & medium & large & -> & Hlen & _ & _ & _ & Ht1 & Hall).
    cbn [app] in *.
    destruct (submit_all_returns env small medium large) as (t2 & futures & Hsub & _).
    destruct (await_all_from env futures true) as (t3 & Hawait & _ & Hp3 & _).
    cbn [andb] in Hawait.
    pose proof (submit_all_trace env (groups small medium large)) as Hp2.
    rewrite Hsub in Hp2. cbn [fst] in Hp2.
    eexists small, medium, large, t2, futures, t3, [_], [_].
    split; [reflexivity|]. split; [exact Hlen|].
    split; [rewrite <- Ht1; apply processed_obs_count, Htrace|].
    split; [exact Hall|].
    split; [exact Hsub|]. split; [exact Hawait|].
    split.
    { with_strategy opaque [send_batches_concurrently] cbn.
      rewrite send_batches_concurrently_split, Hsub.
      cbn [bind]. unfold await_all. rewrite Hawait. cbn.
      unfold routing_response. rewrite Hlen. reflexivity. }
    repeat split; auto; repeat constructor.
  - cbn [bind]. split; [reflexivity|]. split; [exact H|].
    apply processed_obs_count, Htrace.
Qed.

Lemma lambda_handler_cases env event : invocation env event.
Proof.
  pose proof (decode_phase_trace env event) as Ht0.
  destruct (decode_phase env event) as [t0 [parsed|e]] eqn:Hdec; cbn [fst] in Ht0.
  - destruct parsed as [|message parsed].
    + apply (ShortCircuit env event t0); [exact Hdec|].
      unfold lambda_handler, handler_body. rewrite Hdec. reflexivity.
    + pose proof (dispatch_phase_run env (message :: parsed)) as Hrun.
      assert (Hbody : handler_body env event
                      = (t0 ++ fst (dispatch_phase env (message :: parsed)),
                         snd (dispatch_phase env (message :: parsed)))).
      { unfold handler_body. now rewrite (bind_Ok _ _ _ _ Hdec). }
      destruct (route_messages_by_queue_type env (message :: parsed))
        as [t1 [g|e]] eqn:Hroute.
      * destruct Hrun as (small & medium & large & t2 & futures & t3 & tl1 & tl2
                          & -> & Hsum & Hcount & Hall & Hsub & Hawait & Hdisp
                          & Hl1 & Hl2 & Hq2 & Hq3).
        apply (Dispatched env event t0 (message :: parsed) t1 small medium large
                 t2 futures t3 tl1 tl2); auto; try discriminate.
        unfold lambda_handler. rewrite Hbody, Hdisp. reflexivity.
      * destruct Hrun as (Hdisp & Hex & Hquiet).
        rewrite Hdisp in Hbody. cbn [fst snd] in Hbody.
        apply (Faulted env event (t0 ++ t1) e); [exact Hbody| | |].
        -- right. exists t0, (message :: parsed), t1. auto.
        -- unfold sends in *. rewrite omap_app.
           destruct (decode_obs_silent t0 Ht0) as (_ & Hs & _).
           unfold sends in Hs. now rewrite Hs, Hquiet.
        -- unfold lambda_handler. now rewrite Hbody.
  - assert (Hbody : handler_body env event = (t0, Raise e)).
    { unfold handler_body. now rewrite (bind_Raise _ _ _ _ Hdec). }
    apply (Faulted env event t0 e); [exact Hbody|now left| |].
    + now destruct (decode_obs_silent t0 Ht0) as (_ & Hs & _).
    + unfold lambda_handler. now rewrite Hbody.
Qed.

(** ** Decoder *)

Lemma parse_kafka_message_returns env record :
  exists t message, parse_kafka_message env record = (t, Ok message).
Proof.
  unfold parse_kafka_message.
  destruct (py_get record "value" (JStr "")) as [v|e]; simpl; [|eauto].
  destruct (truthy v); simpl; [|eauto].
  destruct (b64decode env v) as [b|e]; simpl; [|eauto].
  destruct (decode_utf8 env b) as [s|e]; simpl; [|eauto].
  destruct (json_loads env s) as [m|e]; simpl; [|eauto].
  unfold logger. cbn. destruct (isEnabledFor env DEBUG); cbn; eauto.
Qed.

(** C6, amended.  For a record whose [value] field is absent or empty,
    decoding yields no message and makes no error observation, only a warning
    log record.  For a record whose [value] is there and is not valid base64,
    UTF-8 or JSON, decoding yields no message and makes exactly one error
    observation, tagged [parse_error]. *)
Theorem parse_kafka_message_failures env (d : list (string * json)) :
  let value := default (JStr "") (Dict.get d "value") in
  (truthy value = false ->
   exists t, parse_kafka_message env (JDict d) = (t, Ok JNull)
     /\ routing_errors t = []
     /\ t = [Log WARNING "Empty message value in record" [("record", JDict d)]])
  /\ (truthy value = true ->
      forall e, decode_payload env value = Raise e ->
      exists t, parse_kafka_message env (JDict d) = (t, Ok JNull)
        /\ routing_errors t = ["parse_error"]).
Proof.
  intros value. unfold parse_kafka_message. cbn [py_get lift bind app].
  change (match Dict.get d "value" with Some v => v | None => JStr "" end) with value.
  split.
  - intros ->. cbn. eauto.
  - intros -> e He. cbn [negb]. unfold decode_payload in He.
    destruct (b64decode env value) as [b|e1]; cbn [res_bind] in He.
    + destruct (decode_utf8 env b) as [s|e2]; cbn [res_bind] in He.
      * rewrite He. cbn. eauto.
      * injection He as ->. cbn. eauto.
    + injection He as ->. cbn. eauto.
Qed.

Lemma decode_records_run env (records : list json) :
  forall parsed_messages,
  exists t,
    for_each records parsed_messages (decode_records env)
    = (t, Ok (parsed_messages ++ decoded_messages env records)).
Proof.
  induction records as [|record records IH]; intros parsed; cbn [for_each].
  - exists []. unfold decoded_messages. simpl. now rewrite app_nil_r.
  - destruct (parse_kafka_message_returns env record) as (t1 & message & Hparse).
    assert (Hmessage : message_of env record = message).
    { unfold message_of. now rewrite Hparse. }
    change (decoded_messages env (record :: records))
      with (List.filter truthy (message_of env record :: map (message_of env) records)).
    cbn [List.filter]. rewrite Hmessage.
    unfold decode_records at 1. rewrite Hparse. cbn [bind ret app].
    destruct (IH (if truthy message then parsed ++ [message] else parsed)) as [t2 ->].
    eexists. apply f_equal2; [reflexivity|]. f_equal. fold (decoded_messages env records).
    destruct (truthy message); [now rewrite <- app_assoc | reflexivity].
Qed.

Lemma decode_partitions_run env (partitions : list (string * json)) :
  forall records parsed_messages total_records,
    partition_records partitions = Some records ->
    exists t total,
      for_each partitions (parsed_messages, total_records) (decode_partition env)
      = (t, Ok (parsed_messages ++ decoded_messages env records, total)).
Proof.
  induction partitions as [|[topic_partition value] partitions IH];
    intros records parsed total Hrec; cbn [for_each].
  - injection Hrec as <-. exists [], total. unfold decoded_messages. simpl.
    now rewrite app_nil_r.
  - cbn [partition_records] in Hrec.
    destruct value as [| | | | |l|]; try discriminate.
    destruct (partition_records partitions) as [rest|] eqn:Hrest; [|discriminate].
    injection Hrec as <-.
    unfold decode_partition at 1. cbn [py_len py_iter lift bind app].
    destruct (decode_records_run env l parsed) as [t1 ->].
    cbn [bind ret app emit]; logger_step; cbn [bind ret app emit].
    destruct (IH rest (parsed ++ decoded_messages env l) (total + length l) eq_refl)
      as (t2 & total' & ->).
    eexists _, total'. apply f_equal2; [reflexivity|]. f_equal. f_equal.
    unfold decoded_messages. now rewrite map_app, List.filter_app, app_assoc.
Qed.

Lemma decode_phase_records env event records :
  records_of event = Some records ->
  exists t, decode_phase env event = (t, Ok (decoded_messages env records)).
Proof.
  destruct event as [| | | | | |e]; try discriminate. unfold records_of.
  unfold decode_phase. cbn [py_get lift bind app].
  change (match Dict.get e "records" with Some v => v | None => JDict [] end)
    with (default (JDict []) (Dict.get e "records")).
  destruct (default (JDict []) (Dict.get e "records")) as [| | | | | |partitions];
    try discriminate.
  intros Hrec. cbn [py_len py_items lift bind app emit]; logger_step; cbn [py_len py_items lift bind app emit].
  destruct (decode_partitions_run env partitions records [] 0 Hrec) as (t & total & ->).
  cbn. eauto.
Qed.

(** ** The claims about whole invocations *)

Lemma lambda_handler_short_circuit env event t0 :
  decode_phase env event = (t0, Ok []) ->
  lambda_handler env event = (t0 ++ no_messages_obs, short_circuit_response)
  /\ processed (t0 ++ no_messages_obs) = []
  /\ sends (t0 ++ no_messages_obs) = []
  /\ batch_sizes (t0 ++ no_messages_obs) = [].
Proof.
  intros Hdec.
  pose proof (decode_phase_trace env event) as Ht0. rewrite Hdec in Ht0.
  cbn [fst] in Ht0.
  split.
  - unfold lambda_handler, handler_body. now rewrite Hdec.
  - apply decode_obs_silent, Forall_app. split; [exact Ht0|].
    repeat constructor.
Qed.

(** C5, amended.  For every input batch from which no message decodes (the
    empty batch among them), the handler returns at once, without grouping
    or dispatch, with the success response [statusCode 200,
    processedMessages 0]; that response has no [queueDistribution] field. *)
Theorem lambda_handler_no_messages env event (records : list json) :
  records_of event = Some records ->
  decoded_messages env records = [] ->
  exists t,
    lambda_handler env event
    = (t, JDict [("statusCode", JInt 200%Z); ("processedMessages", JInt 0%Z)])
    /\ processed t = [] /\ sends t = [] /\ batch_sizes t = [].
Proof.
  intros Hrec Hnone.
  destruct (decode_phase_records env event records Hrec) as [t0 Hdec].
  rewrite Hnone in Hdec.
  exists (t0 ++ no_messages_obs).
  exact (lambda_handler_short_circuit env event t0 Hdec).
Qed.

Lemma lambda_handler_wrapped_eq env event :
  lambda_handler_wrapped env event
  = (fst (lambda_handler env event), Ok (snd (lambda_handler env event))).
Proof.
  unfold lambda_handler_wrapped, lambda_handler.
  destruct (handler_body env event) as [t [response|e]]; reflexivity.
Qed.

(** C8.  Whatever the event, the handler's function returns: it never
    raises, and its response carries a status code of 200 or 500.  When one
    of the three phases raises, which only the reading of the event's
    structure and the classification of a decoded message can do, nothing
    has been sent, and the error is caught and becomes the failure response
    carrying the error's description; so it is for an event that is not even
    a dict.  Under decorators that hand on the response of the function they
    wrap, the exported handler returns that response too. *)
Theorem lambda_handler_never_faults env event :
  (exists t r,
     lambda_handler_wrapped env event = (t, Ok (JDict r))
     /\ lambda_handler env event = (t, JDict r)
     /\ (Dict.get r "statusCode" = Some (JInt 200%Z)
         \/ Dict.get r "statusCode" = Some (JInt 500%Z)))
  /\ (forall t e, handler_body env event = (t, Raise e) ->
        lambda_handler_wrapped env event
        = (t ++ [Log ERROR "Lambda handler error" [("error", JStr (str_exn e))];
                 RoutingErrors "handler_error"],
           Ok (JDict [("statusCode", JInt 500%Z); ("error", JStr (str_exn e))]))
        /\ sends t = []
        /\ (decode_phase env event = (t, Raise e)
            \/ exists t0 parsed_messages t1,
                 decode_phase env event = (t0, Ok parsed_messages)
                 /\ t = t0 ++ t1
                 /\ Exists (fun message => determine_queue_type env message = Raise e)
                      parsed_messages))
  /\ ((forall d, event <> JDict d) ->
      lambda_handler_wrapped env event
      = ([Log ERROR "Lambda handler error"
            [("error", JStr ("'" ++ type_name event ++ "' object has no attribute 'get'"))];
          RoutingErrors "handler_error"],
         Ok (JDict [("statusCode", JInt 500%Z);
                    ("error",
                     JStr ("'" ++ type_name event ++ "' object has no attribute 'get'"))])))
  /\ (passes_response (log_metrics env) ->
      passes_response (inject_lambda_context env) ->
      passes_response (capture_lambda_handler env) ->
      exists t,
        lambda_handler_decorated env event = (t, Ok (snd (lambda_handler env event)))).
Proof.
  split; [|split; [|split]].
  - rewrite lambda_handler_wrapped_eq.
    destruct (lambda_handler_cases env event)
      as [u0 Hdecode Hresponse
       | u0 parsed u1 small medium large u2 futures u3 tlog1 tlog2
           Hdecode Hparsed Hroute' Hsum Hprocessed Hall Hsubmit Hawait
           Hlog1 Hlog2 Hquiet2 Hquiet3 Hresponse
       | u e Hbody Hcause Hquiet Hresponse]; rewrite Hresponse; cbn [fst snd].
    + eexists _, _. split; [reflexivity|]. split; [reflexivity|]. now left.
    + eexists _, _. split; [reflexivity|]. split; [reflexivity|].
      destruct (forallb (task_succeeded env) futures); [now left | now right].
    + eexists _, _. split; [reflexivity|]. split; [reflexivity|]. now right.
  - intros t e Hbody. split.
    { unfold lambda_handler_wrapped. rewrite Hbody. reflexivity. }
    assert (Hfault : lambda_handler env event
                     = (t ++ handler_error_obs e, failure_response e)).
    { unfold lambda_handler. now rewrite Hbody. }
    destruct (lambda_handler_cases env event)
      as [u0 Hdecode Hresponse
       | u0 parsed u1 small medium large u2 futures u3 tlog1 tlog2
           Hdecode Hparsed Hroute' Hsum Hprocessed Hall Hsubmit Hawait
           Hlog1 Hlog2 Hquiet2 Hquiet3 Hresponse
       | u e' Hbody' Hcause Hquiet Hresponse].
    + rewrite Hresponse in Hfault. discriminate.
    + rewrite Hresponse in Hfault.
      destruct (forallb (task_succeeded env) futures); discriminate.
    + rewrite Hbody in Hbody'. injection Hbody' as <- <-.
      split; [exact Hquiet|].
      destruct Hcause as [Hdecode | (t0 & parsed & t1 & Hdecode & _ & Hex & Ht)].
      * now left.
      * right. exists t0, parsed, t1. auto.
  - intros Hnot. destruct event; try reflexivity. now destruct (Hnot d).
  - intros Hmetrics Hcontext Htracer. unfold lambda_handler_decorated.
    destruct (Hmetrics (lambda_handler_wrapped env) event _ _
                (lambda_handler_wrapped_eq env event)) as [t1 H1].
    destruct (Hcontext _ event _ _ H1) as [t2 H2].
    destruct (Htracer _ event _ _ H2) as [t3 H3].
    exists t3. exact H3.
Qed.

Lemma decoded_messages_In env (records : list json) record d :
  In record records ->
  message_of env record = JDict d ->
  d <> [] ->
  In (JDict d) (decoded_messages env records).
Proof.
  intros Hin Hmessage Hd. unfold decoded_messages.
  apply List.filter_In. split.
  - rewrite <- Hmessage. now apply List.in_map.
  - now destruct d.
Qed.

(** Once a message that cannot be classified is among the decoded ones, the
    invocation ends in the failure response and nothing has been sent. *)
Lemma lambda_handler_unclassifiable env event t0 (parsed_messages : list json) message :
  decode_phase env event = (t0, Ok parsed_messages) ->
  In message parsed_messages ->
  classifiable message = false ->
  exists t e,
    lambda_handler env event = (t, failure_response e) /\ sends t = [].
Proof.
  intros Hdec Hin Hbad.
  destruct (lambda_handler_cases env event)
    as [u0 Hdecode Hresponse
       | u0 parsed u1 small medium large u2 futures u3 tlog1 tlog2
           Hdecode Hparsed Hroute' Hsum Hprocessed Hall Hsubmit Hawait
           Hlog1 Hlog2 Hquiet2 Hquiet3 Hresponse
       | u e Hbody Hcause Hquiet Hresponse].
  - rewrite Hdec in Hdecode. injection Hdecode as _ ->. destruct Hin.
  - rewrite Hdec in Hdecode. injection Hdecode as _ <-.
    rewrite List.Forall_forall in Hall. specialize (Hall _ Hin). congruence.
  - exists (u ++ handler_error_obs e), e. split; [exact Hresponse|].
    unfold sends in *. rewrite omap_app, Hquiet. reflexivity.
Qed.

(** C9.  When a record of the batch decodes to a message whose count is not
    a number and whose [queueType] names no category, classification raises
    on it (no count is read as 0), and the invocation returns the failure
    response with an error description, having sent no batch at all. *)
Theorem lambda_handler_non_numeric_count env event (records : list json) record
    (d : list (string * json)) :
  records_of event = Some records ->
  In record records ->
  message_of env record = JDict d ->
  is_queue_type (queue_type_of d) = false ->
  numeric (count_of d) = false ->
  (exists e, determine_queue_type env (JDict d) = Raise e)
  /\ exists t e,
       lambda_handler env event
       = (t, JDict [("statusCode", JInt 500%Z); ("error", JStr (str_exn e))])
       /\ sends t = [].
Proof.
  intros Hrec Hin Hmessage Hqueue Hcount.
  assert (Hbad : classifiable (JDict d) = false).
  { simpl. rewrite Hqueue, Hcount. now rewrite andb_false_r. }
  split.
  - destruct (determine_queue_type env (JDict d)) as [r|e] eqn:Hdet; [|eauto].
    assert (classifiable (JDict d) = true) by (apply (classifiable_iff env); eauto).
    congruence.
  - destruct (decode_phase_records env event records Hrec) as [t0 Hdec].
    apply (lambda_handler_unclassifiable env event t0 _ (JDict d) Hdec); [|exact Hbad].
    apply decoded_messages_In with (record := record); auto.
    intros ->. discriminate.
Qed.

(** The dispatch phase is reached, and answers, exactly when some message
    decoded and every decoded message can be classified. *)
Lemma lambda_handler_dispatches env event (records : list json) :
  records_of event = Some records ->
  decoded_messages env records <> [] ->
  Forall (fun message => classifiable message = true) (decoded_messages env records) ->
  exists t success small medium large,
    lambda_handler env event = (t, routing_response success small medium large)
    /\ small + medium + large = length (decoded_messages env records).
Proof.
  intros Hrec Hsome Hall.
  destruct (decode_phase_records env event records Hrec) as [t0 Hdec].
  destruct (lambda_handler_cases env event)
    as [u0 Hdecode Hresponse
       | u0 parsed u1 small medium large u2 futures u3 tlog1 tlog2
           Hdecode Hparsed Hroute' Hsum Hprocessed Hall' Hsubmit Hawait
           Hlog1 Hlog2 Hquiet2 Hquiet3 Hresponse
       | u e Hbody Hcause Hquiet Hresponse].
  - rewrite Hdec in Hdecode. injection Hdecode as _ E. contradiction.
  - rewrite Hdec in Hdecode. injection Hdecode as _ <-. eauto 8.
  - destruct Hcause as [Hc | (t0' & p' & t1' & Hd & _ & Hex & _)].
    + rewrite Hdec in Hc. discriminate.
    + rewrite Hdec in Hd. injection Hd as _ <-.
      apply Exists_exists in Hex as (message & Hin & Hraise).
      rewrite Forall_forall in Hall. specialize (Hall _ Hin).
      apply (classifiable_iff env) in Hall as [r Hr]. congruence.
Qed.

(** C10.  In every response that carries a [queueDistribution], that is in
    every response made by the dispatch phase, [processedMessages] is the sum
    of the three counts small, medium and large. *)
Theorem lambda_handler_processed_is_sum env event t (r : list (string * json))
    (distribution : json) :
  lambda_handler env event = (t, JDict r) ->
  Dict.get r "queueDistribution" = Some distribution ->
  exists small medium large : nat,
    distribution = JDict [("small", JNat small); ("medium", JNat medium);
                          ("large", JNat large)]
    /\ Dict.get r "processedMessages" = Some (JNat (small + medium + large)).
Proof.
  intros Hrun Hdist.
  destruct (lambda_handler_cases env event)
    as [u0 Hdecode Hresponse
       | u0 parsed u1 small medium large u2 futures u3 tlog1 tlog2
           Hdecode Hparsed Hroute' Hsum Hprocessed Hall Hsubmit Hawait
           Hlog1 Hlog2 Hquiet2 Hquiet3 Hresponse
       | u e Hbody Hcause Hquiet Hresponse]; rewrite Hresponse in Hrun.
  - injection Hrun as _ <-. discriminate.
  - injection Hrun as _ <-. injection Hdist as <-.
    exists (length small), (length medium), (length large). split; reflexivity.
  - injection Hrun as _ <-. discriminate.
Qed.


(** ** The claims on concrete inputs *)

(** C1 fails as it is stated.  A message whose [queueType] is the list
    [["x"]], which is none of the three names, and whose count is the
    integer 10, gets no category: the membership test raises.  And the
    count 50.5, the float [101 * 2^-1], is classified MEDIUM although it lies
    strictly between 50 and 51. *)
Lemma determine_queue_type_rule_counterexample :
  (is_queue_type (JList [JStr "x"]) = false
   /\ determine_queue_type (Reference.env [])
        (JDict [("queueType", JList [JStr "x"]); ("applicationCount", JInt 10%Z)])
      = Raise (TypeError "unhashable type: 'list'"))
  /\ ((50 * 2 ^ 1 < 101 < 51 * 2 ^ 1)%Z
      /\ determine_queue_type (Reference.env [])
           (JDict [("applicationCount", JFloat (FFin 101 (-1)))])
         = Ok (JStr "MEDIUM")).
Proof. repeat split; reflexivity. Qed.

Lemma determine_queue_type_rule_witness :
  determine_queue_type (Reference.env [])
    (JDict [("queueType", JStr "LARGE"); ("applicationCount", JInt 150%Z)])
  = Ok (JStr "LARGE")
  /\ determine_queue_type (Reference.env []) (JDict [("applicationCount", JInt 75%Z)])
     = Ok (JStr "MEDIUM")
  /\ determine_queue_type (Reference.env [])
       (JDict [("applicationCount", JFloat (FFin 401 (-1)))])
     = Ok (JStr "LARGE").
Proof.
  split; [|split].
  - exact (proj1 (determine_queue_type_rule (Reference.env [])
                    [("queueType", JStr "LARGE"); ("applicationCount", JInt 150%Z)])
             eq_refl).
  - destruct (proj2 (determine_queue_type_rule (Reference.env [])
                       [("applicationCount", JInt 75%Z)]) eq_refl eq_refl)
      as [Hint _].
    destruct (Hint 75%Z eq_refl) as (c & Hc & _ & Hmedium & _).
    rewrite Hc. f_equal. f_equal. apply Hmedium. lia.
  - destruct (proj2 (determine_queue_type_rule (Reference.env [])
                       [("applicationCount", JFloat (FFin 401 (-1)))]) eq_refl eq_refl)
      as (_ & Hfloat & _).
    destruct (Hfloat (FFin 401 (-1)) eq_refl ltac:(discriminate))
      as (c & Hc & _ & _ & Hlarge).
    rewrite Hc. f_equal. f_equal. apply Hlarge. reflexivity.
Defined.

(** C3 fails as it is stated.  A message with a numeric count whose
    [queueType] is a list makes grouping raise: no mapping comes back. *)
Lemma route_messages_by_queue_type_counterexample :
  numeric (count_of [("queueType", JList [JStr "x"]); ("applicationCount", JInt 10%Z)])
  = true
  /\ route_messages_by_queue_type (Reference.env [])
       [JDict [("queueType", JList [JStr "x"]); ("applicationCount", JInt 10%Z)]]
     = ([], Raise (TypeError "unhashable type: 'list'")).
Proof. split; reflexivity. Qed.

Lemma route_messages_by_queue_type_groups_witness :
  exists t small medium large,
    route_messages_by_queue_type (Reference.env [])
      [JDict [("productId", JInt 1%Z); ("applicationCount", JInt 25%Z)];
       JDict [("productId", JInt 2%Z); ("applicationCount", JInt 100%Z)];
       JDict [("productId", JInt 3%Z); ("queueType", JStr "LARGE")]]
    = (t, Ok [("SMALL", small); ("MEDIUM", medium); ("LARGE", large)])
    /\ length small + length medium + length large = 3
    /\ Forall (tagged_as "SMALL") small
    /\ Forall (tagged_as "MEDIUM") medium
    /\ Forall (tagged_as "LARGE") large.
Proof.
  apply (route_messages_by_queue_type_groups (Reference.env [])).
  repeat constructor.
Defined.

(** C5 fails as it is stated.  On the empty batch the response is
    [statusCode 200, processedMessages 0] and has no [queueDistribution]. *)
Lemma lambda_handler_no_messages_counterexample :
  snd (lambda_handler (Reference.env []) (JDict [("records", JDict [])]))
  = JDict [("statusCode", JInt 200%Z); ("processedMessages", JInt 0%Z)]
  /\ Dict.get [("statusCode", JInt 200%Z); ("processedMessages", JInt 0%Z)]
       "queueDistribution" = None.
Proof. split; reflexivity. Qed.

Lemma lambda_handler_no_messages_witness :
  exists t,
    lambda_handler (Reference.env []) (batch_of [payload_invalid; ""])
    = (t, JDict [("statusCode", JInt 200%Z); ("processedMessages", JInt 0%Z)])
    /\ processed t = [] /\ sends t = [] /\ batch_sizes t = [].
Proof.
  apply (lambda_handler_no_messages (Reference.env []) (batch_of [payload_invalid; ""])
           [JDict [("value", JStr payload_invalid)]; JDict [("value", JStr "")]]).
  - reflexivity.
  - vm_compute. reflexivity.
Defined.

(** C6 fails as it is stated.  A record with an empty [value], and one
    without the field, yield no message and make no error observation. *)
Lemma parse_kafka_message_counterexample :
  parse_kafka_message (Reference.env []) (JDict [("value", JStr "")])
  = ([Log WARNING "Empty message value in record"
        [("record", JDict [("value", JStr "")])]], Ok JNull)
  /\ routing_errors (fst (parse_kafka_message (Reference.env [])
                            (JDict [("value", JStr "")]))) = []
  /\ routing_errors (fst (parse_kafka_message (Reference.env []) (JDict []))) = [].
Proof. repeat split. Qed.

Lemma parse_kafka_message_failures_witness :
  (exists t,
     parse_kafka_message (Reference.env []) (JDict [("value", JStr "")]) = (t, Ok JNull)
     /\ routing_errors t = []
     /\ t = [Log WARNING "Empty message value in record"
               [("record", JDict [("value", JStr "")])]])
  /\ (exists t,
        parse_kafka_message (Reference.env []) (JDict [("value", JStr payload_invalid)])
        = (t, Ok JNull)
        /\ routing_errors t = ["parse_error"]).
Proof.
  split.
  - exact (proj1 (parse_kafka_message_failures (Reference.env []) [("value", JStr "")])
             eq_refl).
  - apply (proj2 (parse_kafka_message_failures (Reference.env [])
                    [("value", JStr payload_invalid)])
             eq_refl (Exception "JSONDecodeError" "Expecting value")).
    vm_compute. reflexivity.
Defined.

(** C7.  The code departs from the claim, and from its own docstring, on
    a message whose count is a string: classification neither returns a
    category nor [None], it raises a [TypeError] out of the comparison with
    the first threshold. *)
Theorem determine_queue_type_text_count :
  determine_queue_type (Reference.env []) (JDict [("applicationCount", JStr "abc")])
  = Raise (TypeError "'<=' not supported between instances of 'str' and 'int'").
Proof. reflexivity. Qed.


Lemma lambda_handler_never_faults_witness :
  lambda_handler_wrapped (Reference.env []) JNull
  = ([Log ERROR "Lambda handler error"
        [("error", JStr "'NoneType' object has no attribute 'get'")];
      RoutingErrors "handler_error"],
     Ok (JDict [("statusCode", JInt 500%Z);
                ("error", JStr "'NoneType' object has no attribute 'get'")]))
  /\ lambda_handler_wrapped (Reference.env []) (JDict [("records", JList [])])
     = ([Log INFO "Processing MSK event"
           [("event_source", JNull); ("record_count", JNat 0)];
         Log ERROR "Lambda handler error"
           [("error", JStr "'list' object has no attribute 'items'")];
         RoutingErrors "handler_error"],
        Ok (JDict [("statusCode", JInt 500%Z);
                   ("error", JStr "'list' object has no attribute 'items'")]))
  /\ exists t,
       lambda_handler_decorated (Reference.env []) (batch_of [payload_text_count])
       = (t, Ok (JDict [("statusCode", JInt 500%Z);
                        ("error",
                         JStr "'<=' not supported between instances of 'str' and 'int'")])).
Proof.
  split; [|split].
  - apply (proj1 (proj2 (proj2 (lambda_handler_never_faults (Reference.env []) JNull)))).
    discriminate.
  - apply (proj1 (proj2 (lambda_handler_never_faults (Reference.env [])
                           (JDict [("records", JList [])])))
             [Log INFO "Processing MSK event"
                [("event_source", JNull); ("record_count", JNat 0)]]
             (AttributeError (JList []) "items")).
    reflexivity.
  - apply (proj2 (proj2 (proj2 (lambda_handler_never_faults (Reference.env [])
                                   (batch_of [payload_text_count]))))).
    + intros handler event t response H. exists t. exact H.
    + intros handler event t response H. exists t. exact H.
    + intros handler event t response H. exists t. exact H.
Defined.

Lemma lambda_handler_non_numeric_count_witness :
  (exists e, determine_queue_type (Reference.env [])
               (JDict [("applicationCount", JStr "abc")]) = Raise e)
  /\ exists t e,
       lambda_handler (Reference.env []) (batch_of [payload_medium; payload_text_count])
       = (t, JDict [("statusCode", JInt 500%Z); ("error", JStr (str_exn e))])
       /\ sends t = [].
Proof.
  apply (lambda_handler_non_numeric_count (Reference.env [])
           (batch_of [payload_medium; payload_text_count])
           [JDict [("value", JStr payload_medium)];
            JDict [("value", JStr payload_text_count)]]
           (JDict [("value", JStr payload_text_count)])
           [("applicationCount", JStr "abc")]).
  - reflexivity.
  - right. left. reflexivity.
  - vm_compute. reflexivity.
  - reflexivity.
  - reflexivity.
Defined.

Lemma lambda_handler_processed_is_sum_witness :
  exists small medium large : nat,
    JDict [("small", JNat 0); ("medium", JNat 1); ("large", JNat 0)]
    = JDict [("small", JNat small); ("medium", JNat medium); ("large", JNat large)]
    /\ Dict.get [("statusCode", JInt 200%Z); ("processedMessages", JNat 1);
                 ("queueDistribution",
                  JDict [("small", JNat 0); ("medium", JNat 1); ("large", JNat 0)])]
         "processedMessages"
       = Some (JNat (small + medium + large)).
Proof.
  apply (lambda_handler_processed_is_sum (Reference.env []) (batch_of [payload_medium])
           (fst (lambda_handler (Reference.env []) (batch_of [payload_medium])))).
  - vm_compute. reflexivity.
  - reflexivity.
Defined.

(** The end-to-end case of the repository's test suite: one record holding
    [{"productId": 123, "applicationCount": 75}] is routed to MEDIUM. *)
Example lambda_handler_success :
  snd (lambda_handler (Reference.env []) (batch_of [payload_medium]))
  = JDict [("statusCode", JInt 200%Z); ("processedMessages", JInt 1%Z);
           ("queueDistribution",
            JDict [("small", JInt 0%Z); ("medium", JInt 1%Z); ("large", JInt 0%Z)])]
  /\ sends (fst (lambda_handler (Reference.env []) (batch_of [payload_medium])))
     = [(MEDIUM_QUEUE_URL (Reference.env []),
         [Entry 0 (JDict [("productId", JInt 123%Z); ("applicationCount", JInt 75%Z);
                          ("queueType", JStr "MEDIUM")])
            (JStr "MEDIUM") "123"])].
Proof. split; vm_compute; reflexivity. Qed.

(** ** Further properties of the grouper *)

Lemma tagged_classifies env message category :
  determine_queue_type env message = Ok category ->
  exists d, message = JDict d
    /\ tagged category message = JDict (Dict.set d "queueType" category)
    /\ is_queue_type category = true.
Proof.
  intros H. destruct (determine_queue_type_Ok_dict _ _ _ H) as [d ->].
  exists d. repeat split. exact (determine_queue_type_valid _ _ _ H).
Qed.

(** X1.  Classification is stable under the tagging that grouping does: a
    message that classified as c, once its [queueType] is set to c,
    classifies as c again, and every other field of it reads as before. *)
Theorem tagged_message_stable env message category :
  determine_queue_type env message = Ok category ->
  determine_queue_type env (tagged category message) = Ok category
  /\ forall key fallback,
       key <> "queueType" ->
       py_get (tagged category message) key fallback = py_get message key fallback.
Proof.
  intros H. destruct (tagged_classifies env message category H) as (d & -> & -> & Hq).
  split.
  - rewrite determine_queue_type_dict. unfold queue_type_of.
    rewrite get_set_eq. cbn [default from_option id].
    now rewrite Hq, (is_queue_type_testable _ Hq).
  - intros key fallback Hkey. cbn [py_get].
    rewrite get_set_ne by congruence. reflexivity.
Qed.

Lemma route_message_step env small medium large message category :
  determine_queue_type env message = Ok category ->
  let pick c := if category_is c category then [tagged category message] else [] in
  route_message env (groups small medium large) message
  = ([MessagesProcessed category],
     Ok (groups (small ++ pick "SMALL") (medium ++ pick "MEDIUM") (large ++ pick "LARGE"))).
Proof.
  intros H pick.
  destruct (tagged_classifies env message category H) as (d & -> & Htag & Hq).
  unfold route_message. rewrite H. subst pick. rewrite Htag.
  destruct (is_queue_type_inv _ Hq) as [-> | [-> | ->]];
    cbn; rewrite ?app_nil_r; reflexivity.
Qed.

Lemma group_of_cons env c message messages category :
  determine_queue_type env message = Ok category ->
  group_of env c (message :: messages)
  = (if category_is c category then [tagged category message] else [])
    ++ group_of env c messages.
Proof.
  intros H. unfold group_of. cbn [omap list_omap]. rewrite H.
  now destruct (category_is c category).
Qed.

Lemma route_messages_explicit env (messages : list json) :
  Forall (fun message => classifiable message = true) messages ->
  forall small medium large,
    for_each messages (groups small medium large) (route_message env)
    = (map MessagesProcessed (categories env messages),
       Ok (groups (small ++ group_of env "SMALL" messages)
                  (medium ++ group_of env "MEDIUM" messages)
                  (large ++ group_of env "LARGE" messages))).
Proof.
  induction 1 as [|message messages Hm _ IH]; intros small medium large.
  - cbn. now rewrite !app_nil_r.
  - apply (classifiable_iff env) in Hm as [category Hcat].
    cbn [for_each]. rewrite (route_message_step env _ _ _ _ _ Hcat).
    cbn [bind]. rewrite IH.
    rewrite !(group_of_cons env _ _ _ _ Hcat), !app_assoc.
    unfold categories. cbn [omap list_omap]. rewrite Hcat. reflexivity.
Qed.

(** X2.  Grouping is a stable partition: when every message can be
    classified, the list of category c holds exactly the messages that
    classify as c, tagged, in the order they came, and one processed count is
    made per message, with its category, in that order. *)
Theorem route_messages_by_queue_type_partition env (parsed_messages : list json) :
  Forall (fun message => classifiable message = true) parsed_messages ->
  route_messages_by_queue_type env parsed_messages
  = (map MessagesProcessed (categories env parsed_messages),
     Ok [("SMALL", group_of env "SMALL" parsed_messages);
         ("MEDIUM", group_of env "MEDIUM" parsed_messages);
         ("LARGE", group_of env "LARGE" parsed_messages)]).
Proof.
  intros Hall. unfold route_messages_by_queue_type.
  exact (route_messages_explicit env parsed_messages Hall [] [] []).
Qed.

Lemma route_messages_stops env (before after : list json) message e :
  Forall (fun message => classifiable message = true) before ->
  determine_queue_type env message = Raise e ->
  forall small medium large,
    for_each (before ++ message :: after) (groups small medium large) (route_message env)
    = (map MessagesProcessed (categories env before), Raise e).
Proof.
  intros Hall Hraise.
  induction Hall as [|m before Hm _ IH]; intros small medium large.
  - cbn [app for_each]. rewrite (route_message_Raise env _ _ _ Hraise). reflexivity.
  - apply (classifiable_iff env) in Hm as [category Hcat].
    cbn [app for_each]. rewrite (route_message_step env _ _ _ _ _ Hcat).
    cbn [bind]. rewrite IH.
    unfold categories. cbn [omap list_omap]. rewrite Hcat. reflexivity.
Qed.

(** X3.  Grouping stops at the first message it cannot classify: the error
    raised is that message's, the messages before it have been counted as
    processed, and no mapping comes back. *)
Theorem route_messages_by_queue_type_first_failure env
    (before after : list json) message e :
  Forall (fun message => classifiable message = true) before ->
  determine_queue_type env message = Raise e ->
  route_messages_by_queue_type env (before ++ message :: after)
  = (map MessagesProcessed (categories env before), Raise e).
Proof.
  intros Hall Hraise. unfold route_messages_by_queue_type.
  exact (route_messages_stops env before after message e Hall Hraise [] [] []).
Qed.

(** ** Further properties of the batcher *)

Lemma py_range_bound start stop step :
  Forall (fun i => start <= i < stop) (py_range start stop step).
Proof.
  funelim (py_range start stop step).
  - constructor; [lia|]. eapply Forall_impl; [exact H|]. simpl. intros i Hi. lia.
  - constructor.
Qed.

Lemma py_range_full_slices {A} (l : list A) start step :
  0 < step ->
  forall bs b,
    map (fun i => py_slice l i (i + step)) (py_range start (length l) step) = bs ++ [b] ->
    Forall (fun x => length x = step) bs.
Proof.
  intros Hstep. funelim (py_range start (length l) step); intros bs b Heqn.
  - destruct bs as [|b0 bs]; [constructor|].
    cbn [map app] in Heqn. injection Heqn as <- Hrest.
    constructor; [|exact (H Hstep _ _ Hrest)].
    assert (Hnext : start + step < length l).
    { pose proof (py_range_bound (start + step) (length l) step) as Hb.
      destruct (py_range (start + step) (length l) step) as [|i rest].
      - destruct bs; discriminate.
      - inversion Hb. lia. }
    unfold py_slice. rewrite length_take, length_drop. lia.
  - destruct bs; discriminate.
Qed.

(** X4.  No batch is empty, every batch but the last holds exactly 10
    messages, and the empty list gives no batch. *)
Theorem batches_shape (messages : list json) :
  Forall (fun batch => batch <> []) (batches messages)
  /\ (forall full last, batches messages = full ++ [last] ->
        Forall (fun batch => length batch = 10) full)
  /\ (messages = [] <-> batches messages = []).
Proof.
  split; [|split].
  - unfold batches. apply Forall_map.
    eapply Forall_impl; [apply py_range_bound|].
    intros i Hi. cbn beta in *. unfold py_slice, BATCH_SIZE.
    intros Hnil. apply (f_equal length) in Hnil.
    rewrite length_take, length_drop in Hnil. simpl in Hnil. lia.
  - intros full last Heq. unfold batches in Heq.
    apply (py_range_full_slices messages 0 BATCH_SIZE) in Heq;
      [exact Heq | unfold BATCH_SIZE; lia].
  - unfold batches. split.
    + intros ->. reflexivity.
    + intros Hnil. apply (f_equal (@concat json)) in Hnil.
      rewrite py_range_slices in Hnil by (unfold BATCH_SIZE; lia).
      exact Hnil.
Qed.

(** ** Further properties of the sender *)

Lemma make_entries_dicts env (messages : list json) :
  Forall (fun message => is_dict message = true) messages ->
  forall i, make_entries env i messages = Ok (imap (fun j => entry_of env (i + j)) messages).
Proof.
  induction 1 as [|message messages Hm _ IH]; intros i; [reflexivity|].
  cbn [make_entries imap]. destruct message; try discriminate.
  cbn [make_entry py_get res_bind]. rewrite IH. cbn [res_bind].
  rewrite Nat.add_0_r. do 2 f_equal.
  apply imap_ext. intros j x _. cbn. f_equal. lia.
Qed.

Lemma make_entries_Ok env (messages : list json) :
  forall i entries,
    make_entries env i messages = Ok entries ->
    Forall (fun message => is_dict message = true) messages.
Proof.
  induction messages as [|message messages IH]; intros i entries H; [constructor|].
  cbn [make_entries] in H.
  destruct message; try discriminate. constructor; [reflexivity|].
  cbn [make_entry py_get res_bind] in H.
  destruct (make_entries env (S i) messages) as [es|e] eqn:E; [|discriminate].
  exact (IH _ _ E).
Qed.

Lemma imap_entry_of_ids env (messages : list json) :
  forall i, map entry_Id (imap (fun j => entry_of env (i + j)) messages)
            = seq i (length messages)
            /\ map entry_MessageBody (imap (fun j => entry_of env (i + j)) messages)
               = messages.
Proof.
  induction messages as [|message messages IH]; intros i; [split; reflexivity|].
  cbn [imap map length seq].
  assert (Hext : imap ((fun j => entry_of env (i + j)) ∘ S) messages
                 = imap (fun j => entry_of env (S i + j)) messages).
  { apply imap_ext. intros j x _. cbn. f_equal. lia. }
  rewrite Hext. destruct (IH (S i)) as [-> ->].
  rewrite Nat.add_0_r. split; f_equal; now destruct message.
Qed.

Lemma imap_entry_of_attributes env (messages : list json) :
  Forall (fun message => is_dict message = true) messages ->
  forall i,
    Forall (fun entry =>
              py_get (entry_MessageBody entry) "queueType" (JStr "UNKNOWN")
              = Ok (entry_queueType entry)
              /\ exists product_id,
                   py_get (entry_MessageBody entry) "productId" (JStr "unknown")
                   = Ok product_id
                   /\ entry_productId entry = py_str (py_repr env) product_id)
      (imap (fun j => entry_of env (i + j)) messages).
Proof.
  induction 1 as [|message messages Hm _ IH]; intros i; [constructor|].
  cbn [imap]. constructor.
  - destruct message; try discriminate. split; [reflexivity|].
    eexists. split; reflexivity.
  - specialize (IH (S i)). erewrite imap_ext; [exact IH|].
    intros j x _. cbn. f_equal. lia.
Qed.

(** X5.  The entries built for a batch.  They are built only when every
    message is a dict.  Their Ids are 0, 1, 2, ... in order (so no two are
    equal) and their bodies are the messages in order.  The attribute
    [queueType] of an entry is the message's field of that name as it is, or
    the word UNKNOWN where the field is missing; the attribute [productId] is
    the text [str] gives for the message's field, or the word unknown where
    the field is missing: the decimal digits of an int, a string as it is,
    [None], [True] and [False] for the constants. *)
Theorem make_entries_shape env (messages : list json) (entries : list entry) :
  make_entries env 0 messages = Ok entries ->
  Forall (fun message => is_dict message = true) messages
  /\ map entry_Id entries = seq 0 (length messages)
  /\ NoDup (map entry_Id entries)
  /\ map entry_MessageBody entries = messages
  /\ Forall (fun entry =>
               py_get (entry_MessageBody entry) "queueType" (JStr "UNKNOWN")
               = Ok (entry_queueType entry)
               /\ exists product_id,
                    py_get (entry_MessageBody entry) "productId" (JStr "unknown")
                    = Ok product_id
                    /\ entry_productId entry = py_str (py_repr env) product_id
                    /\ match product_id with
                       | JInt n => entry_productId entry
                                   = NilZero.string_of_int (Z.to_int n)
                       | JStr text => entry_productId entry = text
                       | JNull => entry_productId entry = "None"
                       | JBool true => entry_productId entry = "True"
                       | JBool false => entry_productId entry = "False"
                       | _ => True
                       end) entries.
Proof.
  intros H. pose proof (make_entries_Ok _ _ _ _ H) as Hdicts.
  rewrite (make_entries_dicts _ _ Hdicts 0) in H. injection H as <-.
  destruct (imap_entry_of_ids env messages 0) as [Hids Hbodies].
  split; [exact Hdicts|]. split; [exact Hids|]. split.
  { assert (Hnd : NoDup (seq 0 (length messages)))
      by apply NoDup_ListNoDup, List.seq_NoDup.
    rewrite <- Hids in Hnd. exact Hnd. }
  split; [exact Hbodies|].
  eapply Forall_impl; [exact (imap_entry_of_attributes env messages Hdicts 0)|].
  intros entry (Hq & product_id & Hp & Hs). split; [exact Hq|].
  exists product_id. split; [exact Hp|]. split; [exact Hs|].
  rewrite Hs. destruct product_id as [|[|]| | | | |]; reflexivity || exact I.
Qed.

Lemma make_entries_not_dict env (messages : list json) :
  Exists (fun message => is_dict message = false) messages ->
  forall i, exists e, make_entries env i messages = Raise e.
Proof.
  induction messages as [|message messages IH]; intros Hex i.
  - inversion Hex.
  - cbn [make_entries]. destruct message as [| | | | | |d];
      try (eexists; reflexivity).
    cbn [make_entry py_get res_bind].
    destruct (IH ltac:(inversion Hex; [discriminate | assumption]) (S i)) as [e ->].
    eexists. reflexivity.
Qed.

Lemma reply_errors_ok reply :
  (reply_errors reply = [] <-> reply_ok reply = true)
  /\ Forall (fun tag => tag = "sqs_batch_failure" \/ tag = "sqs_send_error")
       (reply_errors reply).
Proof.
  destruct reply as [response|e]; cbn.
  - destruct (has_failed response); cbn; split; try split; try discriminate; auto.
  - split; [split; discriminate | auto].
Qed.

Ltac obs_solve :=
  repeat match goal with |- Forall _ _ => constructor end; cbn; auto.

(** X6.  A send task never raises.  For a batch of dicts it calls the
    client exactly once, with the batch's entries; it returns true iff the
    client answered without an error and with no failed item, and otherwise
    makes exactly one error observation: [sqs_batch_failure] when items
    failed, [sqs_send_error] when the call raised.  A batch holding a
    message that is not a dict is never sent: the task returns false with one
    [sqs_send_error]. *)
Theorem send_to_sqs_batch_outcome env task (messages : list json) queue_url :
  (Forall (fun message => is_dict message = true) messages ->
   exists t,
     send_to_sqs_batch env task messages queue_url
     = (t, Ok (reply_ok (send_message_batch env task queue_url (imap (entry_of env) messages))))
     /\ sends t = [(queue_url, imap (entry_of env) messages)]
     /\ routing_errors t
        = reply_errors (send_message_batch env task queue_url (imap (entry_of env) messages))
     /\ Forall is_task_obs t)
  /\ (Exists (fun message => is_dict message = false) messages ->
      exists t,
        send_to_sqs_batch env task messages queue_url = (t, Ok false)
        /\ sends t = []
        /\ routing_errors t = ["sqs_send_error"]).
Proof.
  split.
  - intros Hdicts. unfold send_to_sqs_batch.
    rewrite (make_entries_dicts env messages Hdicts 0).
    change (imap (fun j => entry_of env (0 + j)) messages) with (imap (entry_of env) messages).
    cbn [lift bind emit app].
    destruct (send_message_batch env task queue_url (imap (entry_of env) messages))
      as [response|e]; cbn.
    + destruct (has_failed response); cbn; eexists; (split; [reflexivity|]);
        repeat split; obs_solve.
    + eexists; (split; [reflexivity|]); repeat split; obs_solve.
  - intros Hex. unfold send_to_sqs_batch.
    destruct (make_entries_not_dict env messages Hex 0) as [e ->]. cbn.
    eexists; repeat split.
Qed.

Lemma send_task env task (messages : list json) queue_url :
  Forall (fun message => is_dict message = true) messages ->
  exists t value,
    send_to_sqs_batch env task messages queue_url = (t, Ok value)
    /\ sends t = [(queue_url, imap (entry_of env) messages)]
    /\ (routing_errors t = [] <-> value = true)
    /\ Forall is_task_obs t.
Proof.
  intros Hdicts. unfold send_to_sqs_batch.
  rewrite (make_entries_dicts env messages Hdicts 0).
  change (imap (fun j => entry_of env (0 + j)) messages) with (imap (entry_of env) messages).
  cbn [lift bind emit app].
  destruct (send_message_batch env task queue_url (imap (entry_of env) messages))
    as [response|e]; cbn.
  - destruct (has_failed response); cbn; eexists _, _; (split; [reflexivity|]);
      repeat split; try discriminate; obs_solve.
  - eexists _, _; (split; [reflexivity|]); repeat split; try discriminate; obs_solve.
Qed.

Lemma task_obs_silent (t : list obs) :
  Forall is_task_obs t ->
  processed t = [] /\ batch_sizes t = []
  /\ Forall (fun tag => tag = "sqs_batch_failure" \/ tag = "sqs_send_error")
       (routing_errors t).
Proof.
  induction 1 as [|o t Ho _ (IH1 & IH2 & IH3)]; [repeat split; constructor|].
  destruct o; try contradiction; cbn; repeat split; auto.
Qed.

Lemma submit_batches_plan env queue_type queue_url (bs : list (list json)) :
  Forall (Forall (fun message => is_dict message = true)) bs ->
  forall futures,
  exists t new,
    for_each bs futures (submit env queue_type queue_url) = (t, Ok (futures ++ new))
    /\ sends t = map (fun batch => (queue_url, imap (entry_of env) batch)) bs
    /\ map fut_batch_size new = map length bs
    /\ map fut_task new = seq (length futures) (length bs)
    /\ (routing_errors t = [] <-> forallb fut_value new = true)
    /\ Forall is_task_obs t.
Proof.
  induction 1 as [|batch bs Hb _ IH]; intros futures; cbn [for_each].
  - exists [], []. rewrite app_nil_r. repeat split; constructor.
  - destruct (send_task env (length futures) batch queue_url Hb)
      as (t1 & value & Hsend & Hsends & Herr & Hobs).
    unfold submit at 1. rewrite Hsend. cbn [bind ret app].
    destruct (IH (futures ++ [Future (length futures) value queue_type (length batch)]))
      as (t2 & new & -> & Hsends2 & Hsizes & Htasks & Herr2 & Hobs2).
    exists (t1 ++ t2),
      (Future (length futures) value queue_type (length batch) :: new).
    split; [rewrite ?app_nil_r, <- (app_assoc futures); reflexivity|].
    unfold sends, routing_errors in *.
    rewrite length_app in Htasks. cbn [length] in Htasks.
    replace (length futures + 1) with (S (length futures)) in Htasks by lia.
    rewrite !omap_app, Hsends, Hsends2. cbn [map forallb fut_batch_size fut_task seq length].
    rewrite Hsizes, Htasks.
    repeat split; auto.
    + intros Hnil. apply app_eq_nil in Hnil as [H1 H2].
      apply andb_true_iff. split; [now apply Herr | now apply Herr2].
    + intros Hall. apply andb_true_iff in Hall as [H1 H2].
      apply Herr in H1. apply Herr2 in H2. now rewrite H1, H2.
    + apply Forall_app. auto.
Qed.

Lemma batches_dicts (messages : list json) :
  Forall (fun message => is_dict message = true) messages ->
  Forall (Forall (fun message => is_dict message = true)) (batches messages).
Proof.
  intros H. unfold batches. apply Forall_map, Forall_forall. intros i _. cbn beta.
  unfold py_slice. apply Forall_take, Forall_drop, H.
Qed.

Lemma submit_group_plan env queue_type queue_url (messages : list json) :
  Dict.get (QUEUE_MAPPINGS env) queue_type = Some queue_url ->
  Forall (fun message => is_dict message = true) messages ->
  forall futures,
  exists t new,
    submit_group env futures (queue_type, messages) = (t, Ok (futures ++ new))
    /\ sends t = plan_for env queue_url messages
    /\ map fut_batch_size new = map length (batches messages)
    /\ map fut_task new = seq (length futures) (length (batches messages))
    /\ (routing_errors t = [] <-> forallb fut_value new = true)
    /\ Forall is_task_obs t.
Proof.
  intros Hurl Hdicts futures. unfold submit_group, plan_for.
  destruct messages as [|message messages].
  - exists [], []. rewrite app_nil_r. repeat split; constructor.
  - unfold py_getitem. rewrite Hurl. cbn [lift bind app].
    destruct (submit_batches_plan env queue_type queue_url _
                (batches_dicts _ Hdicts) futures)
      as (t & new & -> & H).
    exists t, new. split; [reflexivity | exact H].
Qed.

(** ** Further properties of the dispatcher *)

Lemma batches_lengths (messages : list json) :
  Forall (fun batch => 1 <= length batch <= 10) (batches messages).
Proof.
  unfold batches. apply Forall_map.
  eapply Forall_impl; [apply py_range_bound|].
  intros i Hi. cbn beta in *. unfold py_slice, BATCH_SIZE.
  rewrite length_take, length_drop. lia.
Qed.

Lemma bodies_app calls1 calls2 : bodies (calls1 ++ calls2) = bodies calls1 ++ bodies calls2.
Proof. unfold bodies. now rewrite map_app, concat_app. Qed.

Lemma bodies_plan_for env queue_url (messages : list json) :
  bodies (plan_for env queue_url messages) = messages.
Proof.
  unfold bodies, plan_for. rewrite map_map. cbn [snd].
  rewrite <- (py_range_slices messages 0 BATCH_SIZE) at 2 by (unfold BATCH_SIZE; lia).
  unfold batches. rewrite map_map. f_equal. apply map_ext. intros i.
  exact (proj2 (imap_entry_of_ids env _ 0)).
Qed.

Lemma plan_for_lengths env queue_url (messages : list json) :
  Forall (fun call => 1 <= length (snd call) <= 10) (plan_for env queue_url messages)
  /\ map (fun call => length (snd call)) (plan_for env queue_url messages)
     = map length (batches messages).
Proof.
  unfold plan_for. split.
  - apply Forall_map. eapply Forall_impl; [apply batches_lengths|].
    intros batch H. cbn. now rewrite length_imap.
  - rewrite map_map. apply map_ext. intros batch. cbn. apply length_imap.
Qed.

Lemma submit_all_plan env (small medium large : list json) :
  Forall (fun message => is_dict message = true) (small ++ medium ++ large) ->
  exists t futures,
    submit_all env (groups small medium large) = (t, Ok futures)
    /\ sends t = dispatch_plan env small medium large
    /\ map fut_batch_size futures
       = map length (batches small ++ batches medium ++ batches large)
    /\ map fut_task futures = seq 0 (length futures)
    /\ (routing_errors t = [] <-> forallb fut_value futures = true)
    /\ Forall is_task_obs t.
Proof.
  intros Hdicts.
  apply Forall_app in Hdicts as [Hs Hrest]. apply Forall_app in Hrest as [Hm Hl].
  unfold submit_all, groups. cbn [for_each].
  destruct (submit_group_plan env "SMALL" (SMALL_QUEUE_URL env) small eq_refl Hs [])
    as (t1 & f1 & -> & Hp1 & Hz1 & Hk1 & He1 & Ho1).
  cbn [bind app].
  destruct (submit_group_plan env "MEDIUM" (MEDIUM_QUEUE_URL env) medium eq_refl Hm f1)
    as (t2 & f2 & -> & Hp2 & Hz2 & Hk2 & He2 & Ho2).
  cbn [bind].
  destruct (submit_group_plan env "LARGE" (LARGE_QUEUE_URL env) large eq_refl Hl (f1 ++ f2))
    as (t3 & f3 & -> & Hp3 & Hz3 & Hk3 & He3 & Ho3).
  cbn [bind ret].
  exists (t1 ++ t2 ++ t3 ++ []), ((f1 ++ f2) ++ f3).
  split; [reflexivity|]. rewrite app_nil_r.
  assert (Hlen1 : length f1 = length (batches small))
    by (rewrite <- (length_map fut_batch_size), Hz1; apply length_map).
  assert (Hlen2 : length f2 = length (batches medium))
    by (rewrite <- (length_map fut_batch_size), Hz2; apply length_map).
  assert (Hlen3 : length f3 = length (batches large))
    by (rewrite <- (length_map fut_batch_size), Hz3; apply length_map).
  unfold sends, routing_errors, dispatch_plan in *.
  rewrite !omap_app, Hp1, Hp2, Hp3, !map_app, Hz1, Hz2, Hz3, Hk1, Hk2, Hk3.
  rewrite !forallb_app, !length_app, <- Hlen1, <- Hlen2, <- Hlen3. cbn [length].
  rewrite <- app_assoc, !List.seq_app. cbn [Nat.add].
  repeat split; auto.
  - intros Hnil. apply app_eq_nil in Hnil as [H1 H23].
    apply app_eq_nil in H23 as [H2 H3].
    rewrite (proj1 He1 H1), (proj1 He2 H2), (proj1 He3 H3). reflexivity.
  - intros Hall. apply andb_true_iff in Hall as [H12 H3].
    apply andb_true_iff in H12 as [H1 H2].
    now rewrite (proj2 He1 H1), (proj2 He2 H2), (proj2 He3 H3).
  - apply Forall_app. split; [assumption|]. apply Forall_app. split; assumption.
Qed.

(** X7.  What dispatch sends.  The tasks run side by side in the pool, so
    the calls reach the client in no order the code fixes; as a collection
    they are one call per batch of the SMALL group to the SMALL queue, one
    per batch of MEDIUM to the MEDIUM queue and one per batch of LARGE to the
    LARGE queue, for three groups of dicts.  Every call carries between 1 and
    10 entries; the bodies of all the calls together are the messages of the
    three groups, each exactly once; and the futures, kept in the order of
    submission, are numbered from 0 and keep the sizes of the batches of
    SMALL, then MEDIUM, then LARGE. *)
Theorem submit_all_dispatch_plan env (small medium large : list json) :
  Forall (fun message => is_dict message = true) (small ++ medium ++ large) ->
  exists t futures,
    submit_all env [("SMALL", small); ("MEDIUM", medium); ("LARGE", large)]
    = (t, Ok futures)
    /\ Permutation (sends t)
         (map (fun batch => (SMALL_QUEUE_URL env, imap (entry_of env) batch))
            (batches small)
          ++ map (fun batch => (MEDIUM_QUEUE_URL env, imap (entry_of env) batch))
               (batches medium)
          ++ map (fun batch => (LARGE_QUEUE_URL env, imap (entry_of env) batch))
               (batches large))
    /\ Forall (fun call => 1 <= length (snd call) <= 10) (sends t)
    /\ Permutation (bodies (sends t)) (small ++ medium ++ large)
    /\ map fut_task futures = seq 0 (length futures)
    /\ map fut_batch_size futures
       = map length (batches small ++ batches medium ++ batches large).
Proof.
  intros Hdicts.
  destruct (submit_all_plan env small medium large Hdicts)
    as (t & futures & Hrun & Hsends & Hsizes & Htasks & _ & _).
  exists t, futures. split; [exact Hrun|]. rewrite Hsends. unfold dispatch_plan.
  split; [reflexivity|]. split; [|split; [|split; [exact Htasks | exact Hsizes]]].
  - apply Forall_app. split; [apply plan_for_lengths|].
    apply Forall_app. split; apply plan_for_lengths.
  - now rewrite !bodies_app, !bodies_plan_for.
Qed.

Lemma await_step env all_successful f :
  exists t,
    await env all_successful f = (t, Ok (all_successful && task_succeeded env f))
    /\ routing_errors t
       = (if result_timeout env (fut_task f) then ["concurrent_send_error"] else [])
    /\ batch_sizes t = (if task_succeeded env f then [fut_batch_size f] else [])
    /\ sends t = [] /\ processed t = [].
Proof.
  unfold await, future_result, task_succeeded.
  destruct (result_timeout env (fut_task f)); cbn.
  - eexists. rewrite andb_false_r. repeat split.
  - destruct (fut_value f); cbn.
    + eexists. rewrite andb_true_r. repeat split.
    + eexists. rewrite andb_false_r. repeat split.
Qed.

Lemma await_all_observations env (futures : list future) :
  forall all_successful,
  exists t,
    for_each futures all_successful (await env)
    = (t, Ok (all_successful && forallb (task_succeeded env) futures))
    /\ routing_errors t
       = map (fun _ => "concurrent_send_error")
           (List.filter (fun f => result_timeout env (fut_task f)) futures)
    /\ batch_sizes t = map fut_batch_size (List.filter (task_succeeded env) futures)
    /\ sends t = [] /\ processed t = [].
Proof.
  induction futures as [|f futures IH]; intros all_successful; cbn [for_each].
  - exists []. cbn. rewrite andb_true_r. repeat split.
  - destruct (await_step env all_successful f) as (t1 & -> & He1 & Hb1 & Hs1 & Hp1).
    destruct (IH (all_successful && task_succeeded env f))
      as (t2 & H2 & He2 & Hb2 & Hs2 & Hp2).
    exists (t1 ++ t2). cbn [bind]. rewrite H2.
    unfold routing_errors, batch_sizes, sends, processed in *.
    rewrite !omap_app, He1, He2, Hb1, Hb2, Hs1, Hs2, Hp1, Hp2.
    cbn [forallb List.filter]. rewrite andb_assoc.
    repeat split.
    + now destruct (result_timeout env (fut_task f)).
    + now destruct (task_succeeded env f).
Qed.

(** X8.  The waiting loop makes one [concurrent_send_error] observation for
    each future whose wait times out and none for a future that returned
    false; it records the size of every batch whose task succeeded; it calls
    the client for nothing; and a timed-out future counts as failed even when
    its task returned true. *)
Theorem await_all_observes env (futures : list future) :
  exists t,
    await_all env futures = (t, Ok (forallb (task_succeeded env) futures))
    /\ routing_errors t
       = map (fun _ => "concurrent_send_error")
           (List.filter (fun f => result_timeout env (fut_task f)) futures)
    /\ batch_sizes t = map fut_batch_size (List.filter (task_succeeded env) futures)
    /\ sends t = []
    /\ (forall f, In f futures -> result_timeout env (fut_task f) = true ->
          forallb (task_succeeded env) futures = false).
Proof.
  destruct (await_all_observations env futures true) as (t & Hrun & He & Hb & Hs & _).
  exists t. unfold await_all. repeat split; auto.
  intros f Hin Htimeout.
  destruct (forallb (task_succeeded env) futures) eqn:E; [|reflexivity].
  rewrite forallb_forall in E. specialize (E f Hin).
  unfold task_succeeded in E. rewrite Htimeout in E. discriminate.
Qed.

(** ** Further properties of the decoder and the orchestrator *)

Ltac parse_trace_step :=
  match goal with
  | |- Forall _ (fst (bind _ _)) => apply bind_trace; [|intros ?]
  | |- Forall _ (fst (try_except _ _)) => apply try_except_trace; [|intros ?]
  | |- Forall _ (fst (for_each _ _ _)) => apply for_each_trace; intros ? ?
  | |- Forall _ (fst (lift _)) => apply lift_trace
  | |- Forall _ (fst (ret _)) => apply ret_trace
  | |- Forall _ (fst (emit _)) => apply emit_trace; first [exact I | reflexivity]
  | |- Forall _ (fst (pair _ _)) =>
      cbn [fst]; repeat constructor; first [exact I | reflexivity]
  | |- Forall _ (fst (if ?c then _ else _)) => destruct c
  | |- Forall _ (fst (match ?x with _ => _ end)) => destruct x
  end.

Lemma parse_kafka_message_parse_obs env record :
  Forall is_parse_obs (fst (parse_kafka_message env record)).
Proof.
  unfold parse_kafka_message, logger, record_routing_error.
  repeat parse_trace_step.
Qed.

Lemma parse_obs_silent (t : list obs) :
  Forall is_parse_obs t ->
  Forall (fun tag => tag = "parse_error") (routing_errors t)
  /\ sends t = [] /\ processed t = [] /\ batch_sizes t = [].
Proof.
  induction 1 as [|o t Ho _ (IH1 & IH2 & IH3 & IH4)]; [repeat split; constructor|].
  destruct o; try contradiction; cbn; repeat split; auto.
Qed.

Lemma parse_kafka_message_decoded env d value message :
  isEnabledFor env DEBUG = false ->
  Dict.get d "value" = Some value ->
  truthy value = true ->
  decode_payload env value = Ok message ->
  parse_kafka_message env (JDict d)
  = ([Log DEBUG "Parsed message" [("message", message)]], Ok message).
Proof.
  intros Hlevel Hvalue Htruthy Hdecode.
  unfold parse_kafka_message. cbn [py_get lift bind app]. rewrite Hvalue, Htruthy.
  cbn [negb]. unfold decode_payload in Hdecode.
  destruct (b64decode env value) as [b|e]; cbn [res_bind] in Hdecode; [|discriminate].
  destruct (decode_utf8 env b) as [s|e]; cbn [res_bind] in Hdecode; [|discriminate].
  cbn [lift bind app]. rewrite Hdecode. unfold logger. cbn. rewrite Hlevel. reflexivity.
Qed.

Lemma parse_kafka_message_overwrite env d value message :
  isEnabledFor env DEBUG = true ->
  Dict.get d "value" = Some value ->
  truthy value = true ->
  decode_payload env value = Ok message ->
  parse_kafka_message env (JDict d)
  = ([Log DEBUG "Parsed message" [("message", message)];
      Log ERROR "Failed to parse Kafka message"
        [("error", JStr (str_exn (OverwriteError "message"))); ("record", JDict d)];
      RoutingErrors "parse_error"],
     Ok JNull).
Proof.
  intros Hlevel Hvalue Htruthy Hdecode.
  unfold parse_kafka_message. cbn [py_get lift bind app]. rewrite Hvalue, Htruthy.
  cbn [negb]. unfold decode_payload in Hdecode.
  destruct (b64decode env value) as [b|e]; cbn [res_bind] in Hdecode; [|discriminate].
  destruct (decode_utf8 env b) as [s|e]; cbn [res_bind] in Hdecode; [|discriminate].
  cbn [lift bind app]. rewrite Hdecode. unfold logger. cbn. rewrite Hlevel. reflexivity.
Qed.

Lemma parse_kafka_message_debug env record :
  isEnabledFor env DEBUG = true ->
  exists t, parse_kafka_message env record = (t, Ok JNull).
Proof.
  intros Hlevel. unfold parse_kafka_message.
  destruct (py_get record "value" (JStr "")) as [v|e]; cbn; [|eauto].
  destruct (truthy v); cbn; [|eauto].
  destruct (b64decode env v) as [b|e]; cbn; [|eauto].
  destruct (decode_utf8 env b) as [s|e]; cbn; [|eauto].
  destruct (json_loads env s) as [m|e]; cbn; [|eauto].
  unfold logger. cbn. rewrite Hlevel. cbn. eauto.
Qed.

Lemma decode_phase_parse_obs env event :
  Forall is_parse_obs (fst (decode_phase env event)).
Proof.
  unfold decode_phase, logger. repeat parse_trace_step.
  unfold decode_partition, logger.
  match goal with |- context [let '(_, _) := ?p in _] => destruct p end.
  match goal with |- context [let '(_, _) := ?p in _] => destruct p end.
  repeat parse_trace_step. unfold decode_records.
  apply bind_trace; [apply parse_kafka_message_parse_obs|]. intros ?. apply ret_trace.
Qed.

(** X9.  Decoding one record never raises; it makes no error observation or
    exactly one, tagged [parse_error], and in the second case yields no
    message.  What becomes of a record whose [value] decodes depends on the
    level of the logger.  Below [DEBUG] the record comes back as the decoded
    value, with no error observation.  At [DEBUG] the call that logs the
    parsed message passes [extra] the key [message], making the log
    record raises a [KeyError], and the decoded value is lost: the record yields no
    message and one [parse_error] whose log carries that error's text.  A
    record that is not a dict yields no message and one [parse_error] at any
    level. *)
Theorem parse_kafka_message_outcome env record :
  (exists t message,
     parse_kafka_message env record = (t, Ok message)
     /\ (routing_errors t = []
         \/ (routing_errors t = ["parse_error"] /\ message = JNull)))
  /\ (forall d value message,
        record = JDict d ->
        Dict.get d "value" = Some value ->
        truthy value = true ->
        decode_payload env value = Ok message ->
        (isEnabledFor env DEBUG = false ->
         parse_kafka_message env record
         = ([Log DEBUG "Parsed message" [("message", message)]], Ok message))
        /\ (isEnabledFor env DEBUG = true ->
            parse_kafka_message env record
            = ([Log DEBUG "Parsed message" [("message", message)];
                Log ERROR "Failed to parse Kafka message"
                  [("error", JStr (str_exn (OverwriteError "message")));
                   ("record", record)];
                RoutingErrors "parse_error"],
               Ok JNull)))
  /\ ((forall d, record <> JDict d) ->
      exists t,
        parse_kafka_message env record = (t, Ok JNull)
        /\ routing_errors t = ["parse_error"]).
Proof.
  split; [|split].
  - unfold parse_kafka_message.
    destruct (py_get record "value" (JStr "")) as [v|e]; cbn; [|eauto 6].
    destruct (truthy v); cbn; [|eauto 6].
    destruct (b64decode env v) as [b|e]; cbn; [|eauto 6].
    destruct (decode_utf8 env b) as [s|e]; cbn; [|eauto 6].
    destruct (json_loads env s) as [m|e]; cbn; [|eauto 6].
    unfold logger. cbn. destruct (isEnabledFor env DEBUG); cbn; eauto 6.
  - intros d value message -> Hvalue Htruthy Hdecode. split; intros Hlevel.
    + exact (parse_kafka_message_decoded env d value message
               Hlevel Hvalue Htruthy Hdecode).
    + exact (parse_kafka_message_overwrite env d value message
               Hlevel Hvalue Htruthy Hdecode).
  - intros Hnot. unfold parse_kafka_message.
    destruct record; try (cbn; eauto). now destruct (Hnot d).
Qed.

Lemma decode_records_errors env (records : list json) :
  forall parsed_messages,
  exists t,
    for_each records parsed_messages (decode_records env)
    = (t, Ok (parsed_messages ++ decoded_messages env records))
    /\ routing_errors t
       = concat (map (fun record =>
                        routing_errors (fst (parse_kafka_message env record))) records).
Proof.
  induction records as [|record records IH]; intros parsed; cbn [for_each].
  - exists []. unfold decoded_messages. cbn. now rewrite app_nil_r.
  - destruct (parse_kafka_message_returns env record) as (t1 & message & Hparse).
    assert (Hmessage : message_of env record = message).
    { unfold message_of. now rewrite Hparse. }
    change (decoded_messages env (record :: records))
      with (List.filter truthy (message_of env record :: map (message_of env) records)).
    cbn [List.filter map concat]. rewrite Hmessage.
    unfold decode_records at 1. rewrite Hparse. cbn [bind ret app fst].
    destruct (IH (if truthy message then parsed ++ [message] else parsed))
      as (t2 & -> & He2).
    exists ((t1 ++ []) ++ t2). split.
    + f_equal. f_equal. fold (decoded_messages env records).
      destruct (truthy message); [now rewrite <- app_assoc | reflexivity].
    + unfold routing_errors in *. rewrite !omap_app, He2. cbn. now rewrite app_nil_r.
Qed.

Lemma decode_partitions_errors env (partitions : list (string * json)) :
  forall records parsed_messages total_records,
    partition_records partitions = Some records ->
    exists t,
      for_each partitions (parsed_messages, total_records) (decode_partition env)
      = (t, Ok (parsed_messages ++ decoded_messages env records,
                total_records + length records))
      /\ routing_errors t
         = concat (map (fun record =>
                          routing_errors (fst (parse_kafka_message env record))) records).
Proof.
  induction partitions as [|[topic_partition value] partitions IH];
    intros records parsed total Hrec; cbn [for_each].
  - injection Hrec as <-. exists []. unfold decoded_messages. cbn.
    now rewrite app_nil_r, Nat.add_0_r.
  - cbn [partition_records] in Hrec.
    destruct value as [| | | | |l|]; try discriminate.
    destruct (partition_records partitions) as [rest|] eqn:Hrest; [|discriminate].
    injection Hrec as <-.
    unfold decode_partition at 1. cbn [py_len py_iter lift bind app].
    destruct (decode_records_errors env l parsed) as (t1 & -> & He1).
    cbn [bind ret app emit]; logger_step; cbn [bind ret app emit].
    destruct (IH rest (parsed ++ decoded_messages env l) (total + length l) eq_refl)
      as (t2 & -> & He2).
    eexists. split.
    + apply f_equal2; [reflexivity|]. f_equal. f_equal.
      * unfold decoded_messages. now rewrite map_app, List.filter_app, app_assoc.
      * rewrite length_app. lia.
    + unfold routing_errors in *. cbn [omap list_omap].
      rewrite !omap_app, He1, He2, map_app, concat_app. cbn. now rewrite app_nil_r.
Qed.

(** X10.  The decode phase on a well-formed batch: the messages it yields
    are the values the records come back as that are not empty, in the order
    of the records, partition after partition; the error observations made
    are those of the records, in order, each tagged [parse_error]; and the
    client is never called.  With the logger below [DEBUG], a record that
    decodes to an empty value (an empty object, null, 0, ...) is left out
    without any error observation.  With the logger at [DEBUG] no record
    comes back as a message, so the phase yields none. *)
Theorem decode_phase_composition env event (records : list json) :
  records_of event = Some records ->
  exists t,
    decode_phase env event
    = (t, Ok (List.filter truthy (map (message_of env) records)))
    /\ routing_errors t
       = concat (map (fun record =>
                        routing_errors (fst (parse_kafka_message env record))) records)
    /\ Forall (fun tag => tag = "parse_error") (routing_errors t)
    /\ sends t = []
    /\ (isEnabledFor env DEBUG = false ->
        forall d value,
          Dict.get d "value" = Some value -> truthy value = true ->
          (exists message, decode_payload env value = Ok message
                           /\ truthy message = false) ->
          routing_errors (fst (parse_kafka_message env (JDict d))) = []
          /\ truthy (message_of env (JDict d)) = false)
    /\ (isEnabledFor env DEBUG = true ->
        List.filter truthy (map (message_of env) records) = []).
Proof.
  intros Hrec.
  pose proof (decode_phase_trace env event) as Hquiet.
  assert (Hrun : exists t,
             decode_phase env event = (t, Ok (decoded_messages env records))
             /\ routing_errors t
                = concat (map (fun record =>
                     routing_errors (fst (parse_kafka_message env record))) records)).
  { destruct event as [| | | | | |e]; try discriminate. unfold records_of in Hrec.
    unfold decode_phase. cbn [py_get lift bind app].
    change (match Dict.get e "records" with Some v => v | None => JDict [] end)
      with (default (JDict []) (Dict.get e "records")).
    destruct (default (JDict []) (Dict.get e "records")) as [| | | | | |partitions];
      try discriminate.
    cbn [py_len py_items lift bind app emit]; logger_step;
      cbn [py_len py_items lift bind app emit].
    destruct (decode_partitions_errors env partitions records [] 0 Hrec)
      as (t & -> & He).
    cbn. eexists. split; [reflexivity|].
    unfold routing_errors in *. cbn [omap list_omap].
    rewrite omap_app, He. cbn. now rewrite app_nil_r. }
  destruct Hrun as (t & Hrun & Herrors). rewrite Hrun in Hquiet. cbn [fst] in Hquiet.
  exists t. split; [exact Hrun|]. split; [exact Herrors|]. split; [|split; [|split]].
  - rewrite Herrors. apply Forall_concat, Forall_map, Forall_forall.
    intros record _. cbn beta.
    apply (parse_obs_silent _ (parse_kafka_message_parse_obs env record)).
  - now destruct (decode_obs_silent t Hquiet) as (_ & Hs & _).
  - intros Hlevel d value Hvalue Htruthy (message & Hdecode & Hempty).
    unfold message_of.
    rewrite (parse_kafka_message_decoded env d value message
               Hlevel Hvalue Htruthy Hdecode).
    split; [reflexivity | exact Hempty].
  - intros Hlevel. clear Hrec Hrun Herrors.
    induction records as [|record records IH]; [reflexivity|].
    cbn [map List.filter]. unfold message_of at 1.
    destruct (parse_kafka_message_debug env record Hlevel) as [t' ->].
    cbn [snd]. exact IH.
Qed.

Lemma group_of_dicts env c (messages : list json) :
  Forall (fun message => is_dict message = true) (group_of env c messages).
Proof.
  unfold group_of. induction messages as [|message messages IH]; [constructor|].
  cbn [omap list_omap].
  destruct (determine_queue_type env message) as [category|e] eqn:Hcat; [|exact IH].
  destruct (category_is c category); [|exact IH].
  constructor; [|exact IH].
  destruct (tagged_classifies env message category Hcat) as (d & _ & -> & _).
  reflexivity.
Qed.

Lemma groups_of_dicts env (messages : list json) :
  Forall (fun message => is_dict message = true)
    (group_of env "SMALL" messages ++ group_of env "MEDIUM" messages
     ++ group_of env "LARGE" messages).
Proof.
  apply Forall_app. split; [apply group_of_dicts|].
  apply Forall_app. split; apply group_of_dicts.
Qed.

(** The whole run of an invocation whose decoded messages, at least one,
    can all be classified. *)
Lemma lambda_handler_dispatched env event t0 (parsed_messages : list json) :
  decode_phase env event = (t0, Ok parsed_messages) ->
  parsed_messages <> [] ->
  Forall (fun message => classifiable message = true) parsed_messages ->
  exists t2 futures t3 log1 log2,
    submit_all env (groups (group_of env "SMALL" parsed_messages)
                           (group_of env "MEDIUM" parsed_messages)
                           (group_of env "LARGE" parsed_messages))
    = (t2, Ok futures)
    /\ await_all env futures = (t3, Ok (forallb (task_succeeded env) futures))
    /\ lambda_handler env event
       = (t0 ++ map MessagesProcessed (categories env parsed_messages)
             ++ [Log INFO "Grouped messages by queue type" log1]
             ++ (t2 ++ t3)
             ++ [Log INFO "Completed message routing" log2],
          JDict [("statusCode",
                  JInt (if forallb (task_succeeded env) futures then 200 else 500)%Z);
                 ("processedMessages", JNat (length parsed_messages));
                 ("queueDistribution",
                  JDict [("small", JNat (length (group_of env "SMALL" parsed_messages)));
                         ("medium", JNat (length (group_of env "MEDIUM" parsed_messages)));
                         ("large", JNat (length (group_of env "LARGE" parsed_messages)))])]).
Proof.
  intros Hdec Hsome Hall.
  destruct (submit_all_plan env _ _ _ (groups_of_dicts env parsed_messages))
    as (t2 & futures & Hsub & _).
  destruct (await_all_observations env futures true) as (t3 & Hawait & _).
  cbn [andb] in Hawait.
  exists t2, futures, t3. eexists _, _.
  split; [exact Hsub|]. split; [exact Hawait|].
  assert (Hbody : handler_body env event
                  = (t0 ++ fst (dispatch_phase env parsed_messages),
                     snd (dispatch_phase env parsed_messages))).
  { unfold handler_body. rewrite (bind_Ok _ _ _ _ Hdec).
    destruct parsed_messages; [contradiction | reflexivity]. }
  unfold lambda_handler. rewrite Hbody. clear Hbody.
  unfold dispatch_phase, route_messages_by_queue_type.
  fold (groups [] [] []).
  rewrite (route_messages_explicit env parsed_messages Hall [] [] []).
  cbn [app].
  with_strategy opaque [send_batches_concurrently group_of categories length] cbn.
  rewrite send_batches_concurrently_split.
  rewrite Hsub. cbn [bind]. unfold await_all. rewrite Hawait.
  with_strategy opaque [group_of categories length] cbn.
  rewrite ?app_nil_r. reflexivity.
Qed.

Lemma all_succeeded_iff env (futures : list future) :
  forallb (task_succeeded env) futures = true
  <-> forallb fut_value futures = true
      /\ List.filter (fun f => result_timeout env (fut_task f)) futures = [].
Proof.
  induction futures as [|f futures IH]; cbn; [tauto|].
  unfold task_succeeded at 1.
  destruct (result_timeout env (fut_task f)), (fut_value f); cbn;
    try tauto; intuition discriminate.
Qed.

Lemma only_parse_errors_app (tags1 tags2 : list string) :
  Forall (fun tag => tag = "parse_error") (tags1 ++ tags2)
  <-> Forall (fun tag => tag = "parse_error") tags1
      /\ Forall (fun tag => tag = "parse_error") tags2.
Proof. apply Forall_app. Qed.

(** X11.  The status code tells whether anything but a parse error was
    counted: the response has status 200 iff every error observation of the
    invocation is tagged [parse_error] (records that fail to decode do not
    fail the invocation; a failed or timed-out batch, or a fault, does). *)
Theorem lambda_handler_status env event :
  py_get (snd (lambda_handler env event)) "statusCode" JNull = Ok (JInt 200%Z)
  <-> Forall (fun tag => tag = "parse_error")
        (routing_errors (fst (lambda_handler env event))).
Proof.
  pose proof (decode_phase_trace env event) as Hquiet.
  destruct (lambda_handler_cases env event)
    as [u0 Hdecode Hresponse
       | u0 parsed u1 small medium large u2 futures u3 tlog1 tlog2
           Hdecode Hparsed Hroute' Hsum Hprocessed Hall Hsubmit Hawait
           Hlog1 Hlog2 Hquiet2 Hquiet3 Hresponse
       | u e Hbody Hcause Hquiet' Hresponse].
  - rewrite Hresponse. cbn [fst snd]. split; [intros _|reflexivity].
    unfold routing_errors. rewrite omap_app. cbn. rewrite app_nil_r.
    assert (Hp : Forall is_parse_obs u0).
    { pose proof (decode_phase_parse_obs env event) as H. now rewrite Hdecode in H. }
    apply (parse_obs_silent _ Hp).
  - clear Hresponse.
    assert (Hp : Forall is_parse_obs u0).
    { pose proof (decode_phase_parse_obs env event) as H. now rewrite Hdecode in H. }
    destruct (lambda_handler_dispatched env event u0 parsed Hdecode Hparsed Hall)
      as (t2 & fs & t3 & log1 & log2 & Hsub & Haw & ->).
    cbn [fst snd py_get Dict.get String.eqb Ascii.eqb Bool.eqb].
    destruct (submit_all_plan env _ _ _ (groups_of_dicts env parsed))
      as (t2' & fs' & Hsub' & _ & _ & _ & Herr2 & Hobs2).
    rewrite Hsub in Hsub'. injection Hsub' as <- <-.
    destruct (await_all_observations env fs true) as (t3' & Haw' & Herr3 & _).
    unfold await_all in Haw. rewrite Haw in Haw'. injection Haw' as <-.
    unfold routing_errors in *. rewrite !omap_app.
    assert (Hnone : omap (fun o => match o with RoutingErrors tag => Some tag | _ => None end)
                      (map MessagesProcessed (categories env parsed)) = []).
    { induction (categories env parsed); [reflexivity | assumption]. }
    rewrite Hnone. cbn [omap list_omap app]. rewrite Herr3.
    destruct (parse_obs_silent _ Hp) as (Hp0 & _).
    destruct (task_obs_silent _ Hobs2) as (_ & _ & Htags2).
    unfold routing_errors in *.
    rewrite !only_parse_errors_app.
    pose proof (all_succeeded_iff env fs) as Hiff.
    destruct (forallb (task_succeeded env) fs).
    + split; [intros _|reflexivity].
      destruct (proj1 Hiff eq_refl) as [Hv Ht].
      rewrite (proj2 Herr2 Hv), Ht. repeat split; auto; constructor.
    + split; [discriminate|]. intros (_ & (H2 & H3) & _).
      enough (false = true) by discriminate. apply Hiff. split.
      * apply Herr2.
        destruct (omap _ t2) as [|tag tags]; [reflexivity|].
        inversion H2 as [|? ? Htag _]. inversion Htags2 as [|? ? Hor _].
        subst. destruct Hor; discriminate.
      * destruct (List.filter _ fs); [reflexivity|].
        inversion H3 as [|? ? Htag _]. discriminate.
  - rewrite Hresponse. cbn [fst snd]. split; [discriminate|].
    unfold routing_errors. rewrite omap_app. intros H.
    apply Forall_app in H as [_ H]. cbn in H.
    inversion H as [|? ? Htag _]. discriminate.
Qed.

Lemma groups_permutation env (messages : list json) :
  Forall (fun message => classifiable message = true) messages ->
  Permutation
    (group_of env "SMALL" messages ++ group_of env "MEDIUM" messages
     ++ group_of env "LARGE" messages)
    (tag_all env messages).
Proof.
  induction 1 as [|message messages Hm _ IH]; [reflexivity|].
  apply (classifiable_iff env) in Hm as [category Hcat].
  rewrite !(group_of_cons env _ _ _ _ Hcat).
  unfold tag_all in *. cbn [omap list_omap]. rewrite Hcat.
  pose proof (determine_queue_type_valid env _ _ Hcat) as Hvalid.
  destruct (is_queue_type_inv _ Hvalid) as [-> | [-> | ->]]; cbn [category_is String.eqb
    Ascii.eqb Bool.eqb app].
  - now constructor.
  - rewrite <- IH. symmetry. apply Permutation_middle.
  - rewrite <- IH, !app_assoc. symmetry. apply Permutation_middle.
Qed.

Lemma tag_all_length env (messages : list json) :
  Forall (fun message => classifiable message = true) messages ->
  length (tag_all env messages) = length messages.
Proof.
  induction 1 as [|message messages Hm _ IH]; [reflexivity|].
  apply (classifiable_iff env) in Hm as [category Hcat].
  unfold tag_all in *. cbn [omap list_omap]. rewrite Hcat. cbn [length].
  now rewrite IH.
Qed.

(** X12.  End to end, for a well-formed batch whose decoded messages can all
    be classified: the calls made to the client, which reach it in no order
    the code fixes, are as a collection the batches of the three groups of
    the decoded messages, each group to its own queue; the bodies sent are
    the decoded messages, each tagged with its category and each exactly
    once, whether or not a send fails; and one processed count is made per
    decoded message, in the order of the messages. *)
Theorem lambda_handler_delivery env event (records : list json) :
  records_of event = Some records ->
  Forall (fun message => classifiable message = true)
    (List.filter truthy (map (message_of env) records)) ->
  let decoded := List.filter truthy (map (message_of env) records) in
  let t := fst (lambda_handler env event) in
  Permutation (sends t)
    (map (fun batch => (SMALL_QUEUE_URL env, imap (entry_of env) batch))
       (batches (group_of env "SMALL" decoded))
     ++ map (fun batch => (MEDIUM_QUEUE_URL env, imap (entry_of env) batch))
          (batches (group_of env "MEDIUM" decoded))
     ++ map (fun batch => (LARGE_QUEUE_URL env, imap (entry_of env) batch))
          (batches (group_of env "LARGE" decoded)))
  /\ Permutation (bodies (sends t)) (tag_all env decoded)
  /\ length (bodies (sends t)) = length decoded
  /\ processed t = categories env decoded.
Proof.
  intros Hrec Hall decoded t.
  assert (Hplan : sends t
                  = dispatch_plan env (group_of env "SMALL" decoded)
                      (group_of env "MEDIUM" decoded) (group_of env "LARGE" decoded)
                  /\ processed t = categories env decoded).
  { subst t. destruct (decode_phase_records env event records Hrec) as [t0 Hdec].
    fold decoded in Hdec. unfold decoded_messages in Hdec. fold decoded in Hdec.
    pose proof (decode_phase_trace env event) as Hquiet. rewrite Hdec in Hquiet.
    destruct (decode_obs_silent _ Hquiet) as (Hp0 & Hs0 & _). cbn [fst] in Hp0, Hs0.
    destruct decoded as [|message rest] eqn:Hdecoded.
    - destruct (lambda_handler_short_circuit env event t0 Hdec) as (-> & Hp & Hs & _).
      cbn [fst]. rewrite Hs, Hp. split; reflexivity.
    - rewrite <- Hdecoded in *.
      destruct (lambda_handler_dispatched env event t0 decoded Hdec
                  ltac:(rewrite Hdecoded; discriminate) Hall)
        as (t2 & fs & t3 & log1 & log2 & Hsub & Haw & ->).
      destruct (submit_all_plan env _ _ _ (groups_of_dicts env decoded))
        as (t2' & fs' & Hsub' & Hsends & _ & _ & _ & Hobs2).
      rewrite Hsub in Hsub'. injection Hsub' as <- <-.
      destruct (await_all_observations env fs true) as (t3' & Haw' & _ & _ & Hs3 & Hp3).
      unfold await_all in Haw. rewrite Haw in Haw'. injection Haw' as <-.
      destruct (task_obs_silent _ Hobs2) as (Hp2 & _).
      cbn [fst]. unfold sends, processed in *.
      rewrite !omap_app, Hs0, Hp0, Hsends, Hs3, Hp2, Hp3. cbn [omap list_omap app].
      rewrite !app_nil_r.
      assert (Hcat : forall cs,
                 omap (fun o => match o with SendMessageBatch u es => Some (u, es)
                                        | _ => None end) (map MessagesProcessed cs) = []
                 /\ omap (fun o => match o with MessagesProcessed c => Some c
                                           | _ => None end) (map MessagesProcessed cs) = cs).
      { induction cs as [|c cs [IH1 IH2]]; [split; reflexivity|].
        cbn. rewrite IH2. split; [exact IH1 | reflexivity]. }
      destruct (Hcat (categories env decoded)) as [-> ->]. split; reflexivity. }
  destruct Hplan as [Hsends Hprocessed].
  assert (Hbodies : bodies (sends t)
                    = group_of env "SMALL" decoded ++ group_of env "MEDIUM" decoded
                      ++ group_of env "LARGE" decoded).
  { rewrite Hsends. unfold dispatch_plan.
    now rewrite !bodies_app, !bodies_plan_for. }
  split; [rewrite Hsends; reflexivity|]. split; [|split; [|exact Hprocessed]].
  - rewrite Hbodies. apply groups_permutation, Hall.
  - rewrite Hbodies, (Permutation_length (groups_permutation env decoded Hall)).
    apply tag_all_length, Hall.
Qed.

Lemma processed_of_counts (cs : list json) :
  processed (map MessagesProcessed cs) = cs /\ sends (map MessagesProcessed cs) = [].
Proof.
  induction cs as [|c cs [IH1 IH2]]; [split; reflexivity|].
  unfold processed, sends in *. cbn. rewrite IH1. split; [reflexivity | exact IH2].
Qed.

(** X13.  When the first decoded message that cannot be classified comes
    after k messages that can, the invocation answers with the failure
    response carrying that message's error; the k messages before it have
    been counted as processed although nothing at all was sent. *)
Theorem lambda_handler_first_failure env event (records before after : list json)
    message e :
  records_of event = Some records ->
  List.filter truthy (map (message_of env) records) = before ++ message :: after ->
  Forall (fun message => classifiable message = true) before ->
  determine_queue_type env message = Raise e ->
  snd (lambda_handler env event)
  = JDict [("statusCode", JInt 500%Z); ("error", JStr (str_exn e))]
  /\ processed (fst (lambda_handler env event)) = categories env before
  /\ sends (fst (lambda_handler env event)) = []
  /\ In "handler_error" (routing_errors (fst (lambda_handler env event))).
Proof.
  intros Hrec Hdecoded Hall Hraise.
  destruct (decode_phase_records env event records Hrec) as [t0 Hdec].
  unfold decoded_messages in Hdec. rewrite Hdecoded in Hdec.
  pose proof (decode_phase_trace env event) as Hquiet. rewrite Hdec in Hquiet.
  destruct (decode_obs_silent _ Hquiet) as (Hp0 & Hs0 & _). cbn [fst] in Hp0, Hs0.
  assert (Hbody : handler_body env event
                  = (t0 ++ map MessagesProcessed (categories env before), Raise e)).
  { unfold handler_body. rewrite (bind_Ok _ _ _ _ Hdec).
    assert (Hdispatch : dispatch_phase env (before ++ message :: after)
                        = (map MessagesProcessed (categories env before), Raise e)).
    { unfold dispatch_phase, route_messages_by_queue_type. fold (groups [] [] []).
      now rewrite (route_messages_stops env before after message e Hall Hraise). }
    destruct (before ++ message :: after) eqn:E; [now destruct before|].
    now rewrite Hdispatch. }
  unfold lambda_handler. rewrite Hbody. cbn [fst snd].
  destruct (processed_of_counts (categories env before)) as [Hp1 Hs1].
  unfold processed, sends, routing_errors in *.
  rewrite !omap_app, Hp0, Hs0, Hp1, Hs1. cbn [omap list_omap app].
  split; [reflexivity|]. split; [apply app_nil_r|]. split; [reflexivity|].
  apply in_or_app. right. now left.
Qed.

(** X14.  An event whose [records] field is there but is not a dict is a
    fault: for a string or a list the response carries the missing-attribute
    error on [items], for anything else the error that the value has no
    length; in both cases nothing is decoded, counted or sent. *)
Theorem lambda_handler_malformed_records env (e : list (string * json)) (v : json) :
  Dict.get e "records" = Some v ->
  is_dict v = false ->
  snd (lambda_handler env (JDict e))
  = failure_response (match py_len v with
                      | Ok _ => AttributeError v "items"
                      | Raise error => error
                      end)
  /\ processed (fst (lambda_handler env (JDict e))) = []
  /\ sends (fst (lambda_handler env (JDict e))) = []
  /\ routing_errors (fst (lambda_handler env (JDict e))) = ["handler_error"].
Proof.
  intros Hrecords Hnot.
  unfold lambda_handler, handler_body, decode_phase. cbn [py_get lift bind app].
  rewrite Hrecords.
  destruct v; try discriminate; cbn; repeat split.
Qed.

(** ** The further properties on concrete inputs *)

Lemma tagged_message_stable_witness :
  determine_queue_type (Reference.env [])
    (tagged (JStr "MEDIUM") (JDict [("productId", JInt 7%Z); ("applicationCount", JInt 75%Z)]))
  = Ok (JStr "MEDIUM")
  /\ forall key fallback,
       key <> "queueType" ->
       py_get (tagged (JStr "MEDIUM")
                 (JDict [("productId", JInt 7%Z); ("applicationCount", JInt 75%Z)]))
         key fallback
       = py_get (JDict [("productId", JInt 7%Z); ("applicationCount", JInt 75%Z)])
           key fallback.
Proof.
  apply (tagged_message_stable (Reference.env [])). reflexivity.
Defined.

Lemma route_messages_by_queue_type_partition_witness :
  snd (route_messages_by_queue_type (Reference.env [])
         [JDict [("productId", JInt 1%Z); ("applicationCount", JInt 300%Z)];
          JDict [("productId", JInt 2%Z); ("applicationCount", JInt 25%Z)];
          JDict [("productId", JInt 3%Z); ("applicationCount", JInt 400%Z)]])
  = Ok [("SMALL", [JDict [("productId", JInt 2%Z); ("applicationCount", JInt 25%Z);
                          ("queueType", JStr "SMALL")]]);
        ("MEDIUM", []);
        ("LARGE", [JDict [("productId", JInt 1%Z); ("applicationCount", JInt 300%Z);
                          ("queueType", JStr "LARGE")];
                   JDict [("productId", JInt 3%Z); ("applicationCount", JInt 400%Z);
                          ("queueType", JStr "LARGE")]])].
Proof.
  rewrite (route_messages_by_queue_type_partition (Reference.env [])).
  - reflexivity.
  - repeat constructor.
Defined.

Lemma route_messages_by_queue_type_first_failure_witness :
  route_messages_by_queue_type (Reference.env [])
    ([JDict [("applicationCount", JInt 25%Z)]]
     ++ JDict [("applicationCount", JStr "abc")]
     :: [JDict [("applicationCount", JInt 300%Z)]])
  = ([MessagesProcessed (JStr "SMALL")],
     Raise (TypeError "'<=' not supported between instances of 'str' and 'int'")).
Proof.
  apply (route_messages_by_queue_type_first_failure (Reference.env [])
           [JDict [("applicationCount", JInt 25%Z)]]
           [JDict [("applicationCount", JInt 300%Z)]]).
  - repeat constructor.
  - reflexivity.
Defined.

Lemma batches_shape_witness :
  Forall (fun batch => length batch = 10)
    [map (fun n => JInt (Z.of_nat n)) (seq 0 10);
     map (fun n => JInt (Z.of_nat n)) (seq 10 10)].
Proof.
  apply (proj1 (proj2 (batches_shape (map (fun n => JInt (Z.of_nat n)) (seq 0 23))))
           _ (map (fun n => JInt (Z.of_nat n)) (seq 20 3))).
  vm_compute. reflexivity.
Defined.

Lemma make_entries_shape_witness :
  make_entries (Reference.env []) 0
    [JDict [("productId", JInt 5%Z); ("queueType", JStr "SMALL")]; JDict [];
     JDict [("productId", JStr "A-7")]]
  = Ok [Entry 0 (JDict [("productId", JInt 5%Z); ("queueType", JStr "SMALL")])
          (JStr "SMALL") "5";
        Entry 1 (JDict []) (JStr "UNKNOWN") "unknown";
        Entry 2 (JDict [("productId", JStr "A-7")]) (JStr "UNKNOWN") "A-7"]
  /\ map entry_Id
       [Entry 0 (JDict [("productId", JInt 5%Z); ("queueType", JStr "SMALL")])
          (JStr "SMALL") "5";
        Entry 1 (JDict []) (JStr "UNKNOWN") "unknown";
        Entry 2 (JDict [("productId", JStr "A-7")]) (JStr "UNKNOWN") "A-7"]
     = seq 0 3.
Proof.
  split; [reflexivity|].
  apply (make_entries_shape (Reference.env [])
           [JDict [("productId", JInt 5%Z); ("queueType", JStr "SMALL")]; JDict [];
            JDict [("productId", JStr "A-7")]]).
  reflexivity.
Defined.

Lemma send_to_sqs_batch_outcome_witness :
  (exists t,
     send_to_sqs_batch (Reference.env [3]) 3 [JDict [("productId", JInt 5%Z)]] "url"
     = (t, Ok false)
     /\ sends t = [("url", [Entry 0 (JDict [("productId", JInt 5%Z)])
                              (JStr "UNKNOWN") "5"])]
     /\ routing_errors t = ["sqs_batch_failure"]
     /\ Forall is_task_obs t)
  /\ (exists t,
        send_to_sqs_batch (Reference.env []) 0 [JInt 5%Z] "url" = (t, Ok false)
        /\ sends t = []
        /\ routing_errors t = ["sqs_send_error"]).
Proof.
  split.
  - apply (proj1 (send_to_sqs_batch_outcome (Reference.env [3]) 3
                    [JDict [("productId", JInt 5%Z)]] "url")).
    repeat constructor.
  - apply (proj2 (send_to_sqs_batch_outcome (Reference.env []) 0 [JInt 5%Z] "url")).
    apply Exists_cons_hd. reflexivity.
Defined.

Lemma submit_all_dispatch_plan_witness :
  exists t futures,
    submit_all (Reference.env [0])
      [("SMALL", [JDict [("queueType", JStr "SMALL")]]); ("MEDIUM", []);
       ("LARGE", [JDict [("queueType", JStr "LARGE")]])]
    = (t, Ok futures)
    /\ Permutation (sends t)
         [(SMALL_QUEUE_URL (Reference.env [0]),
           [Entry 0 (JDict [("queueType", JStr "SMALL")]) (JStr "SMALL") "unknown"]);
          (LARGE_QUEUE_URL (Reference.env [0]),
           [Entry 0 (JDict [("queueType", JStr "LARGE")]) (JStr "LARGE") "unknown"])]
    /\ Forall (fun call => 1 <= length (snd call) <= 10) (sends t)
    /\ Permutation (bodies (sends t))
         ([JDict [("queueType", JStr "SMALL")]] ++ []
          ++ [JDict [("queueType", JStr "LARGE")]])
    /\ map fut_task futures = seq 0 (length futures)
    /\ map fut_batch_size futures = [1; 1].
Proof.
  apply (submit_all_dispatch_plan (Reference.env [0])
           [JDict [("queueType", JStr "SMALL")]] []
           [JDict [("queueType", JStr "LARGE")]]).
  repeat constructor.
Defined.

Lemma await_all_observes_witness :
  forallb (task_succeeded (slow_env [0]))
    [Future 0 true "SMALL" 3; Future 1 true "LARGE" 1] = false.
Proof.
  destruct (await_all_observes (slow_env [0])
              [Future 0 true "SMALL" 3; Future 1 true "LARGE" 1])
    as (t & _ & _ & _ & _ & Hlate).
  apply (Hlate (Future 0 true "SMALL" 3)); [now left | reflexivity].
Defined.

Lemma parse_kafka_message_outcome_witness :
  parse_kafka_message (Reference.env []) (JDict [("value", JStr payload_medium)])
  = ([Log DEBUG "Parsed message"
        [("message", JDict [("productId", JInt 123%Z); ("applicationCount", JInt 75%Z)])]],
     Ok (JDict [("productId", JInt 123%Z); ("applicationCount", JInt 75%Z)]))
  /\ parse_kafka_message debug_env (JDict [("value", JStr payload_medium)])
     = ([Log DEBUG "Parsed message"
           [("message",
             JDict [("productId", JInt 123%Z); ("applicationCount", JInt 75%Z)])];
         Log ERROR "Failed to parse Kafka message"
           [("error", JStr (str_exn (OverwriteError "message")));
            ("record", JDict [("value", JStr payload_medium)])];
         RoutingErrors "parse_error"],
        Ok JNull)
  /\ exists t,
       parse_kafka_message (Reference.env []) (JStr "x") = (t, Ok JNull)
       /\ routing_errors t = ["parse_error"].
Proof.
  split; [|split].
  - apply (proj1 (proj2 (parse_kafka_message_outcome (Reference.env [])
                           (JDict [("value", JStr payload_medium)])))
             [("value", JStr payload_medium)] (JStr payload_medium)).
    + reflexivity.
    + reflexivity.
    + reflexivity.
    + vm_compute. reflexivity.
    + reflexivity.
  - apply (proj1 (proj2 (parse_kafka_message_outcome debug_env
                           (JDict [("value", JStr payload_medium)])))
             [("value", JStr payload_medium)] (JStr payload_medium)).
    + reflexivity.
    + reflexivity.
    + reflexivity.
    + vm_compute. reflexivity.
    + reflexivity.
  - apply (proj2 (proj2 (parse_kafka_message_outcome (Reference.env []) (JStr "x")))).
    discriminate.
Defined.

Lemma decode_phase_composition_witness :
  (exists t,
     decode_phase (Reference.env [])
       (batch_of [payload_medium; payload_empty; payload_invalid])
     = (t, Ok [JDict [("productId", JInt 123%Z); ("applicationCount", JInt 75%Z)]])
     /\ routing_errors t = ["parse_error"])
  /\ (exists t,
        decode_phase debug_env (batch_of [payload_medium]) = (t, Ok [])
        /\ routing_errors t = ["parse_error"]).
Proof.
  split.
  - destruct (decode_phase_composition (Reference.env [])
                (batch_of [payload_medium; payload_empty; payload_invalid])
                [JDict [("value", JStr payload_medium)];
                 JDict [("value", JStr payload_empty)];
                 JDict [("value", JStr payload_invalid)]] eq_refl)
      as (t & Hrun & Herrors & _).
    exists t. split.
    + rewrite Hrun. vm_compute. reflexivity.
    + rewrite Herrors. vm_compute. reflexivity.
  - destruct (decode_phase_composition debug_env (batch_of [payload_medium])
                [JDict [("value", JStr payload_medium)]] eq_refl)
      as (t & Hrun & Herrors & _ & _ & _ & Hdebug).
    exists t. split.
    + rewrite Hrun, (Hdebug eq_refl). reflexivity.
    + rewrite Herrors. vm_compute. reflexivity.
Defined.

Lemma lambda_handler_delivery_witness :
  Permutation
    (sends (fst (lambda_handler (Reference.env [0]) (batch_of [payload_medium]))))
    [(MEDIUM_QUEUE_URL (Reference.env [0]),
      [Entry 0 (JDict [("productId", JInt 123%Z); ("applicationCount", JInt 75%Z);
                       ("queueType", JStr "MEDIUM")])
         (JStr "MEDIUM") "123"])].
Proof.
  pose proof (proj1 (lambda_handler_delivery (Reference.env [0])
                       (batch_of [payload_medium])
                       [JDict [("value", JStr payload_medium)]] eq_refl
                       ltac:(vm_compute; repeat constructor))) as H.
  vm_compute in H. vm_compute. exact H.
Defined.

Lemma lambda_handler_first_failure_witness :
  snd (lambda_handler (Reference.env []) (batch_of [payload_medium; payload_text_count]))
  = JDict [("statusCode", JInt 500%Z);
           ("error", JStr "'<=' not supported between instances of 'str' and 'int'")]
  /\ processed (fst (lambda_handler (Reference.env [])
                       (batch_of [payload_medium; payload_text_count])))
     = categories (Reference.env [])
         [JDict [("productId", JInt 123%Z); ("applicationCount", JInt 75%Z)]]
  /\ sends (fst (lambda_handler (Reference.env [])
                   (batch_of [payload_medium; payload_text_count]))) = []
  /\ In "handler_error"
       (routing_errors (fst (lambda_handler (Reference.env [])
                               (batch_of [payload_medium; payload_text_count])))).
Proof.
  apply (lambda_handler_first_failure (Reference.env [])
           (batch_of [payload_medium; payload_text_count])
           [JDict [("value", JStr payload_medium)];
            JDict [("value", JStr payload_text_count)]]
           [JDict [("productId", JInt 123%Z); ("applicationCount", JInt 75%Z)]]
           []
           (JDict [("applicationCount", JStr "abc")])
           (TypeError "'<=' not supported between instances of 'str' and 'int'")).
  - reflexivity.
  - vm_compute. reflexivity.
  - repeat constructor.
  - reflexivity.
Defined.

Lemma lambda_handler_malformed_records_witness :
  snd (lambda_handler (Reference.env []) (JDict [("records", JInt 3%Z)]))
  = JDict [("statusCode", JInt 500%Z);
           ("error", JStr "object of type 'int' has no len()")]
  /\ processed (fst (lambda_handler (Reference.env []) (JDict [("records", JInt 3%Z)]))) = []
  /\ sends (fst (lambda_handler (Reference.env []) (JDict [("records", JInt 3%Z)]))) = []
  /\ routing_errors (fst (lambda_handler (Reference.env []) (JDict [("records", JInt 3%Z)])))
     = ["handler_error"].
Proof.
  apply (lambda_handler_malformed_records (Reference.env [])
           [("records", JInt 3%Z)] (JInt 3%Z)); reflexivity.
Defined.

(** X15.  The response of a dispatching invocation, read off the batch: for
    a well-formed batch with at least one decoded message, all of which can
    be classified, [processedMessages] is the number of decoded messages and
    the three counts of [queueDistribution] are the numbers of decoded
    messages that classify as SMALL, MEDIUM and LARGE; the status is 200 or
    500. *)
Theorem lambda_handler_distribution env event (records : list json) :
  records_of event = Some records ->
  List.filter truthy (map (message_of env) records) <> [] ->
  Forall (fun message => classifiable message = true)
    (List.filter truthy (map (message_of env) records)) ->
  let decoded := List.filter truthy (map (message_of env) records) in
  exists status,
    (status = 200%Z \/ status = 500%Z)
    /\ snd (lambda_handler env event)
       = JDict [("statusCode", JInt status);
                ("processedMessages", JNat (length decoded));
                ("queueDistribution",
                 JDict [("small", JNat (length (group_of env "SMALL" decoded)));
                        ("medium", JNat (length (group_of env "MEDIUM" decoded)));
                        ("large", JNat (length (group_of env "LARGE" decoded)))])]
    /\ length (group_of env "SMALL" decoded) + length (group_of env "MEDIUM" decoded)
       + length (group_of env "LARGE" decoded) = length decoded.
Proof.
  intros Hrec Hsome Hall decoded.
  destruct (decode_phase_records env event records Hrec) as [t0 Hdec].
  unfold decoded_messages in Hdec. fold decoded in Hdec, Hsome, Hall.
  destruct (lambda_handler_dispatched env event t0 decoded Hdec Hsome Hall)
    as (t2 & fs & t3 & log1 & log2 & _ & _ & ->).
  exists (if forallb (task_succeeded env) fs then 200%Z else 500%Z).
  split; [destruct (forallb (task_succeeded env) fs); auto|].
  split; [reflexivity|].
  rewrite <- (tag_all_length env decoded Hall),
    <- (Permutation_length (groups_permutation env decoded Hall)), !length_app.
  lia.
Qed.

Lemma lambda_handler_distribution_witness :
  exists status,
    (status = 200%Z \/ status = 500%Z)
    /\ snd (lambda_handler (Reference.env []) (batch_of [payload_medium; payload_empty]))
       = JDict [("statusCode", JInt status);
                ("processedMessages", JNat 1);
                ("queueDistribution",
                 JDict [("small", JNat 0); ("medium", JNat 1); ("large", JNat 0)])].
Proof.
  destruct (lambda_handler_distribution (Reference.env [])
              (batch_of [payload_medium; payload_empty])
              [JDict [("value", JStr payload_medium)];
               JDict [("value", JStr payload_empty)]] eq_refl
              ltac:(vm_compute; discriminate)
              ltac:(vm_compute; repeat constructor))
    as (status & Hstatus & Hresponse & _).
  exists status. split; [exact Hstatus|]. rewrite Hresponse. vm_compute. reflexivity.
Defined.
